(** * Verification of the interview session controller of AInterviewer

    Shallow embedding of [src/main.py] ([ejecutar_entrevista]),
    [src/modules/entrevista_logger.py] ([EntrevistaLogger]) and
    [src/modules/llm_conversacion.py] ([generar_pregunta]).

    Python [str] values are modelled as lists of Unicode code points
    ([pystr := list Z]); files hold byte lists ([list Z], each byte in
    [0, 255]).  Python exceptions that escape a function are modelled by
    the [resultado] type. *)

From Stdlib Require Import ZArith List String Ascii Bool Lia QArith Qabs Sorting Permutation.
Import ListNotations.
Open Scope Z_scope.
Set Warnings "-register-all".

(* ------------------------------------------------------------------ *)
(** ** Python text *)

Definition pystr := list Z.

Inductive excepcion :=
| UnicodeEncodeError
| UnicodeDecodeError
| AttributeError.

Inductive resultado (A : Type) :=
| Ok (a : A)
| Err (e : excepcion).
Arguments Ok {A} a.
Arguments Err {A} e.

(** *** UTF-8 *)

(** Encoding of one code point by the strict ["utf-8"] codec of Python:
    surrogates (U+D800..U+DFFF) cannot be encoded. *)
Definition utf8_cp (c : Z) : option (list Z) :=
  if c <? 0 then None
  else if c <? 128 then Some [c]
  else if c <? 2048 then Some [192 + c / 64; 128 + c mod 64]
  else if c <? 65536 then
    if (55296 <=? c) && (c <=? 57343) then None
    else Some [224 + c / 4096; 128 + (c / 64) mod 64; 128 + c mod 64]
  else if c <? 1114112 then
    Some [240 + c / 262144; 128 + (c / 4096) mod 64;
          128 + (c / 64) mod 64; 128 + c mod 64]
  else None.

Fixpoint utf8_encode (s : pystr) : option (list Z) :=
  match s with
  | [] => Some []
  | c :: r =>
      match utf8_cp c, utf8_encode r with
      | Some b, Some br => Some (b ++ br)
      | _, _ => None
      end
  end.

Definition es_continuacion (b : Z) : bool := (128 <=? b) && (b <? 192).

(** Strict UTF-8 decoding: overlong forms, surrogates and code points
    above U+10FFFF are refused, as by Python's decoder. *)
Fixpoint utf8_decode (bs : list Z) : option pystr :=
  match bs with
  | [] => Some []
  | b0 :: r =>
      if b0 <? 0 then None
      else if b0 <? 128 then
        match utf8_decode r with Some s => Some (b0 :: s) | None => None end
      else if (192 <=? b0) && (b0 <? 224) then
        match r with
        | b1 :: r1 =>
            let c := (b0 - 192) * 64 + (b1 - 128) in
            if es_continuacion b1 && (128 <=? c) then
              match utf8_decode r1 with Some s => Some (c :: s) | None => None end
            else None
        | _ => None
        end
      else if (224 <=? b0) && (b0 <? 240) then
        match r with
        | b1 :: b2 :: r2 =>
            let c := (b0 - 224) * 4096 + (b1 - 128) * 64 + (b2 - 128) in
            if es_continuacion b1 && es_continuacion b2 && (2048 <=? c)
               && negb ((55296 <=? c) && (c <=? 57343)) then
              match utf8_decode r2 with Some s => Some (c :: s) | None => None end
            else None
        | _ => None
        end
      else if (240 <=? b0) && (b0 <? 248) then
        match r with
        | b1 :: b2 :: b3 :: r3 =>
            let c := (b0 - 240) * 262144 + (b1 - 128) * 4096
                     + (b2 - 128) * 64 + (b3 - 128) in
            if es_continuacion b1 && es_continuacion b2 && es_continuacion b3
               && (65536 <=? c) && (c <=? 1114111) then
              match utf8_decode r3 with Some s => Some (c :: s) | None => None end
            else None
        | _ => None
        end
      else None
  end.

(** Literals of the source, written here in UTF-8 and read as code
    points. *)
Definition bytes_de_string (s : string) : list Z :=
  map (fun a => Z.of_nat (nat_of_ascii a)) (list_ascii_of_string s).

Definition u (s : string) : pystr :=
  match utf8_decode (bytes_de_string s) with Some p => p | None => [] end.

(** *** [str] methods *)

(** [str.isspace] on a single code point. *)
Definition py_isspace (c : Z) : bool :=
  ((9 <=? c) && (c <=? 13)) || ((28 <=? c) && (c <=? 32)) || (c =? 133)
  || (c =? 160) || (c =? 5760) || ((8192 <=? c) && (c <=? 8202))
  || (c =? 8232) || (c =? 8233) || (c =? 8239) || (c =? 8287) || (c =? 12288).

Fixpoint quitar_inicio (s : pystr) : pystr :=
  match s with
  | c :: r => if py_isspace c then quitar_inicio r else s
  | [] => []
  end.

(** [str.strip()] with no argument. *)
Definition py_strip (s : pystr) : pystr :=
  rev (quitar_inicio (rev (quitar_inicio s))).

Fixpoint es_prefijo (p s : pystr) : bool :=
  match p, s with
  | [], _ => true
  | a :: p', b :: s' => (a =? b) && es_prefijo p' s'
  | _ :: _, [] => false
  end.

(** [p in s] for two [str]. *)
Fixpoint contiene (s p : pystr) : bool :=
  match s with
  | [] => es_prefijo p []
  | _ :: s' => es_prefijo p s || contiene s' p
  end.

(** [s.replace(old, new)] for a non-empty [old]: every non-overlapping
    occurrence, scanning left to right. *)
Fixpoint reemplazar_aux (fuel : nat) (viejo nuevo s : pystr) : pystr :=
  match fuel with
  | O => s
  | S f =>
      match s with
      | [] => []
      | c :: r =>
          if es_prefijo viejo s then nuevo ++ reemplazar_aux f viejo nuevo (skipn (List.length viejo) s)
          else c :: reemplazar_aux f viejo nuevo r
      end
  end.

Definition py_replace (s viejo nuevo : pystr) : pystr :=
  reemplazar_aux (List.length s) viejo nuevo s.

(** [str.lower()] on one code point.  ASCII and Latin-1 letters are
    mapped as Python maps them, together with the two code points whose
    lowercase form contains an ASCII letter (U+0130 and U+212A); other
    code points are kept: their lowercase forms contain no ASCII letter,
    so they never change the outcome of a search for an ASCII phrase. *)
Definition minuscula (c : Z) : list Z :=
  if (65 <=? c) && (c <=? 90) then [c + 32]
  else if (192 <=? c) && (c <=? 222) && negb (c =? 215) then [c + 32]
  else if c =? 304 then [105; 775]
  else if c =? 8490 then [107]
  else [c].

Definition py_lower (s : pystr) : pystr := flat_map minuscula s.

(* ------------------------------------------------------------------ *)
(** ** JSON values and the [json] module *)

(** The Python values that the [json] module reads and writes: [None],
    [bool], [int], [str], [list] and [dict] (kept as the list of its
    entries, in insertion order). *)
Inductive json :=
| JNull
| JBool (b : bool)
| JNum (z : Z)
| JStr (s : pystr)
| JArr (l : list json)
| JObj (kv : list (pystr * json)).

Definition digito_hex (d : Z) : Z := if d <? 10 then 48 + d else 87 + d.

(** One code point as written by [py_encode_basestring]
    ([ensure_ascii=False]). *)
Definition escapar_cp (c : Z) : pystr :=
  if c =? 34 then [92; 34]
  else if c =? 92 then [92; 92]
  else if c =? 10 then [92; 110]
  else if c =? 13 then [92; 114]
  else if c =? 9 then [92; 116]
  else if c =? 8 then [92; 98]
  else if c =? 12 then [92; 102]
  else if c <? 32 then [92; 117; 48; 48; digito_hex (c / 16); digito_hex (c mod 16)]
  else [c].

Definition codificar_cadena (s : pystr) : pystr :=
  34 :: flat_map escapar_cp s ++ [34].

Fixpoint digitos_nat (fuel : nat) (n : Z) : pystr :=
  match fuel with
  | O => []
  | S f => (if n <? 10 then [] else digitos_nat f (n / 10)) ++ [48 + n mod 10]
  end.

(** [str(n)] for an [int]. *)
Definition repr_int (z : Z) : pystr :=
  if z <? 0 then 45 :: digitos_nat (Z.to_nat (Z.log2 (- z)) + 1) (- z)
  else digitos_nat (Z.to_nat (Z.log2 z) + 1) z.

(** ['\n' + ' ' * (2 * nivel)], the line break of [indent=2]. *)
Definition salto (nivel : nat) : pystr := 10 :: repeat 32 (2 * nivel).

Definition unir (sep : pystr) (l : list pystr) : pystr :=
  match l with
  | [] => []
  | x :: xs => x ++ flat_map (fun y => sep ++ y) xs
  end.

(** [json.dumps(v, ensure_ascii=False, indent=2)] at indentation level
    [nivel]: item separator [','], key separator [': ']. *)
Fixpoint volcar (nivel : nat) (v : json) : pystr :=
  match v with
  | JNull => [110; 117; 108; 108]
  | JBool true => [116; 114; 117; 101]
  | JBool false => [102; 97; 108; 115; 101]
  | JNum z => repr_int z
  | JStr s => codificar_cadena s
  | JArr [] => [91; 93]
  | JArr l =>
      [91] ++ salto (S nivel)
      ++ unir (44 :: salto (S nivel)) (map (volcar (S nivel)) l)
      ++ salto nivel ++ [93]
  | JObj [] => [123; 125]
  | JObj kv =>
      [123] ++ salto (S nivel)
      ++ unir (44 :: salto (S nivel))
           (map (fun '(k, x) => codificar_cadena k ++ [58; 32] ++ volcar (S nivel) x) kv)
      ++ salto nivel ++ [125]
  end.

(** *** [json.loads] *)

(** Whitespace skipped between tokens: [' '], ['\t'], ['\n'], ['\r']. *)
Definition es_blanco_json (c : Z) : bool :=
  (c =? 32) || (c =? 9) || (c =? 10) || (c =? 13).

Fixpoint saltar_blancos (s : pystr) : pystr :=
  match s with
  | c :: r => if es_blanco_json c then saltar_blancos r else s
  | [] => []
  end.

Definition valor_hex (c : Z) : option Z :=
  if (48 <=? c) && (c <=? 57) then Some (c - 48)
  else if (97 <=? c) && (c <=? 102) then Some (c - 87)
  else if (65 <=? c) && (c <=? 70) then Some (c - 55)
  else None.

Definition hex4 (a b c d : Z) : option Z :=
  match valor_hex a, valor_hex b, valor_hex c, valor_hex d with
  | Some x, Some y, Some z, Some w => Some (((x * 16 + y) * 16 + z) * 16 + w)
  | _, _, _, _ => None
  end.

(** [py_scanstring] in strict mode, from just after the opening quote:
    returns the decoded text and what follows the closing quote.  A
    [\u] escape is read as four hexadecimal digits; a high surrogate
    followed by an escaped low surrogate is combined into one code
    point. *)
Fixpoint leer_cadena (s : pystr) : option (pystr * pystr) :=
  match s with
  | [] => None
  | c :: r =>
      if c =? 34 then Some ([], r)
      else if c =? 92 then
        match r with
        | e :: r1 =>
            let sigue x rest :=
              match leer_cadena rest with
              | Some (t, rest') => Some (x :: t, rest')
              | None => None
              end in
            if e =? 34 then sigue 34 r1
            else if e =? 92 then sigue 92 r1
            else if e =? 47 then sigue 47 r1
            else if e =? 98 then sigue 8 r1
            else if e =? 102 then sigue 12 r1
            else if e =? 110 then sigue 10 r1
            else if e =? 114 then sigue 13 r1
            else if e =? 116 then sigue 9 r1
            else if e =? 117 then
              match r1 with
              | h1 :: h2 :: h3 :: h4 :: r2 =>
                  match hex4 h1 h2 h3 h4 with
                  | None => None
                  | Some x =>
                      if (55296 <=? x) && (x <=? 56319) then
                        match r2 with
                        | 92 :: 117 :: k1 :: k2 :: k3 :: k4 :: r3 =>
                            match hex4 k1 k2 k3 k4 with
                            | Some y =>
                                if (56320 <=? y) && (y <=? 57343) then
                                  sigue (65536 + (x - 55296) * 1024 + (y - 56320)) r3
                                else sigue x r2
                            | None => sigue x r2
                            end
                        | _ => sigue x r2
                        end
                      else sigue x r2
                  end
              | _ => None
              end
            else None
        | [] => None
        end
      else if c <? 32 then None
      else
        match leer_cadena r with
        | Some (t, r') => Some (c :: t, r')
        | None => None
        end
  end.

Fixpoint leer_digitos (s : pystr) (acc : Z) : Z * pystr :=
  match s with
  | c :: r => if (48 <=? c) && (c <=? 57) then leer_digitos r (acc * 10 + (c - 48)) else (acc, s)
  | [] => (acc, s)
  end.

(** Integer literals: an optional minus sign, then 0 or a digit string
    not starting with 0; fractions and exponents are not
    part of this model (the files of [EntrevistaLogger] hold no
    numbers). *)
Definition leer_entero (s : pystr) : option (json * pystr) :=
  let '(signo, s1) := match s with 45 :: r => (-1, r) | _ => (1, s) end in
  match s1 with
  | 48 :: r => Some (JNum 0, r)
  | c :: r =>
      if (49 <=? c) && (c <=? 57) then
        let '(n, r') := leer_digitos r (c - 48) in Some (JNum (signo * n), r')
      else None
  | [] => None
  end.

(** [scan_once] with the object and array scanners of [json.decoder];
    [fuel] bounds the nesting and the number of items. *)
Fixpoint leer_valor (fuel : nat) (s : pystr) : option (json * pystr) :=
  match fuel with
  | O => None
  | S f =>
      match s with
      | [] => None
      | c :: r =>
          if c =? 34 then
            match leer_cadena r with Some (t, r') => Some (JStr t, r') | None => None end
          else if c =? 123 then
            match saltar_blancos r with
            | 125 :: r' => Some (JObj [], r')
            | r' => leer_miembros f r' []
            end
          else if c =? 91 then
            match saltar_blancos r with
            | 93 :: r' => Some (JArr [], r')
            | r' => leer_elementos f r' []
            end
          else if es_prefijo [110; 117; 108; 108] s then Some (JNull, skipn 4 s)
          else if es_prefijo [116; 114; 117; 101] s then Some (JBool true, skipn 4 s)
          else if es_prefijo [102; 97; 108; 115; 101] s then Some (JBool false, skipn 5 s)
          else leer_entero s
      end
  end
with leer_miembros (fuel : nat) (s : pystr) (acc : list (pystr * json))
  : option (json * pystr) :=
  match fuel with
  | O => None
  | S f =>
      match s with
      | 34 :: r =>
          match leer_cadena r with
          | Some (k, r1) =>
              match saltar_blancos r1 with
              | 58 :: r2 =>
                  match leer_valor f (saltar_blancos r2) with
                  | Some (x, r3) =>
                      match saltar_blancos r3 with
                      | 44 :: r4 => leer_miembros f (saltar_blancos r4) (acc ++ [(k, x)])
                      | 125 :: r4 => Some (JObj (acc ++ [(k, x)]), r4)
                      | _ => None
                      end
                  | None => None
                  end
              | _ => None
              end
          | None => None
          end
      | _ => None
      end
  end
with leer_elementos (fuel : nat) (s : pystr) (acc : list json)
  : option (json * pystr) :=
  match fuel with
  | O => None
  | S f =>
      match leer_valor f s with
      | Some (x, r1) =>
          match saltar_blancos r1 with
          | 44 :: r2 => leer_elementos f (saltar_blancos r2) (acc ++ [x])
          | 93 :: r2 => Some (JArr (acc ++ [x]), r2)
          | _ => None
          end
      | None => None
      end
  end.

(** [json.loads(s)]: a leading byte order mark is refused, whitespace
    around the value is skipped and nothing may follow it.  [None] is a
    [JSONDecodeError].  The reader covers the JSON that
    [guardar_conversacion] writes; a document with a number that has a
    fraction or an exponent, or with [NaN], [Infinity] or [-Infinity],
    which [json.loads] accepts, also gives [None] here, so the model of
    [cargar_conversacion] is faithful only on documents without them. *)
Definition json_loads (s : pystr) : option json :=
  match s with
  | 65279 :: _ => None
  | _ =>
      match leer_valor (List.length s) (saltar_blancos s) with
      | Some (v, r) => match saltar_blancos r with [] => Some v | _ => None end
      | None => None
      end
  end.

(** [d.get(k, default)] on the [dict] read from a JSON object: the last
    entry with key [k] wins, as when Python builds the [dict]. *)
Definition dict_get (kv : list (pystr * json)) (k : pystr) : option json :=
  fold_left (fun acc '(k', x) =>
               if list_eq_dec Z.eq_dec k k' then Some x else acc) kv None.

(* ------------------------------------------------------------------ *)
(** ** [EntrevistaLogger] *)

(** A conversation turn [{"rol": ..., "texto": ...}]. *)
Record turno := mk_turno { rol : pystr; texto : pystr }.

Definition conversacion := list turno.

Definition rol_entrevistador : pystr := Eval cbv in u "entrevistador".
Definition rol_candidato : pystr := Eval cbv in u "candidato".

Definition clave_rol : pystr := Eval cbv in u "rol".
Definition clave_texto : pystr := Eval cbv in u "texto".
Definition clave_timestamp : pystr := Eval cbv in u "timestamp".
Definition clave_conversacion : pystr := Eval cbv in u "conversacion".

Definition turno_json (t : turno) : json :=
  JObj [(clave_rol, JStr (rol t)); (clave_texto, JStr (texto t))].

(** The Python value of a conversation: a [list] of [dict]. *)
Definition conversacion_json (c : conversacion) : json :=
  JArr (map turno_json c).

(** A reading of [datetime.datetime.now()]. *)
Record fecha := mk_fecha {
  anio : Z; mes : Z; dia : Z; hora : Z; minuto : Z; segundo : Z;
  microsegundo : Z }.

(** [n] in decimal, zero-padded to [ancho] digits ([%0<ancho>d]). *)
Definition rellenar (ancho : nat) (n : Z) : pystr :=
  let d := digitos_nat (Z.to_nat (Z.log2 n) + 1) n in
  repeat 48 (ancho - List.length d) ++ d.

(** [datetime.isoformat()]: the microseconds are written only when they
    are not zero. *)
Definition isoformat (t : fecha) : pystr :=
  rellenar 4 (anio t) ++ [45] ++ rellenar 2 (mes t) ++ [45] ++ rellenar 2 (dia t)
  ++ [84] ++ rellenar 2 (hora t) ++ [58] ++ rellenar 2 (minuto t) ++ [58]
  ++ rellenar 2 (segundo t)
  ++ (if microsegundo t =? 0 then [] else 46 :: rellenar 6 (microsegundo t)).

(** [strftime("%Y%m%d_%H%M%S")], for a four-digit year (the year of
    [datetime.now()]); a year below 1000 is zero-padded here, which the C
    library's [%Y] need not do. *)
Definition sello (t : fecha) : pystr :=
  rellenar 4 (anio t) ++ rellenar 2 (mes t) ++ rellenar 2 (dia t) ++ [95]
  ++ rellenar 2 (hora t) ++ rellenar 2 (minuto t) ++ rellenar 2 (segundo t).

(** [os.path.join(a, b)] on POSIX. *)
Definition path_join (a b : pystr) : pystr :=
  match b with
  | 47 :: _ => b
  | _ =>
      match rev a with
      | [] => b
      | 47 :: _ => a ++ b
      | _ => a ++ 47 :: b
      end
  end.

Record EntrevistaLogger := mk_logger {
  directorio : pystr;
  archivo_salida : pystr }.

(** [EntrevistaLogger.__init__]: the output file is fixed from the clock
    at construction time ([os.makedirs] is not modelled). *)
Definition EntrevistaLogger_init (dir : pystr) (ahora : fecha) : EntrevistaLogger :=
  mk_logger dir (path_join dir (u "entrevista_" ++ sello ahora ++ u ".json")).

(** The files of the transcript directory: the bytes stored under each
    path.  The temporary WAV files of [grabar_y_transcribir] and
    [texto_a_voz] and the directories made by [os.makedirs] are not part
    of it. *)
Definition almacen := pystr -> option (list Z).

Definition escribir (fs : almacen) (p : pystr) (b : list Z) : almacen :=
  fun q => if list_eq_dec Z.eq_dec q p then Some b else fs q.

(** The [datos] dictionary written by [guardar_conversacion]. *)
Definition datos_guardados (ahora : fecha) (c : conversacion) : json :=
  JObj [(clave_timestamp, JStr (isoformat ahora)); (clave_conversacion, conversacion_json c)].

(** [EntrevistaLogger.guardar_conversacion]: opens the output file with
    mode ['w'] (replacing its content) and writes
    [json.dump(datos, f, ensure_ascii=False, indent=2)] in UTF-8.  A code
    point the codec cannot encode raises [UnicodeEncodeError]; the file
    left behind in that case is not modelled: the model keeps the old
    content, while [open(..., 'w')] has already emptied the file and
    [json.dump] may have written a part of the document. *)
Definition guardar_conversacion (lg : EntrevistaLogger) (fs : almacen)
    (ahora : fecha) (c : conversacion) : resultado (almacen * pystr) :=
  match utf8_encode (volcar 0 (datos_guardados ahora c)) with
  | Some b => Ok (escribir fs (archivo_salida lg) b, archivo_salida lg)
  | None => Err UnicodeEncodeError
  end.

(** Reading a file in text mode with [newline=None] turns ["\r\n"] and
    a lone ["\r"] into ["\n"]. *)
Fixpoint lineas_universales (s : pystr) : pystr :=
  match s with
  | [] => []
  | 13 :: 10 :: r => 10 :: lineas_universales r
  | 13 :: r => 10 :: lineas_universales r
  | c :: r => c :: lineas_universales r
  end.

(** [EntrevistaLogger.cargar_conversacion]: a missing file or a
    [JSONDecodeError] gives [[]]; a [UnicodeDecodeError] or a top-level
    value that is not a [dict] (no [.get]) escapes. *)
Definition cargar_conversacion (lg : EntrevistaLogger) (fs : almacen)
    (archivo : option pystr) : resultado json :=
  let p := match archivo with Some a => a | None => archivo_salida lg end in
  match fs p with
  | None => Ok (JArr [])
  | Some b =>
      match utf8_decode b with
      | None => Err UnicodeDecodeError
      | Some txt =>
          match json_loads (lineas_universales txt) with
          | None => Ok (JArr [])
          | Some (JObj kv) =>
              Ok (match dict_get kv clave_conversacion with Some x => x | None => JArr [] end)
          | Some _ => Err AttributeError
          end
      end
  end.

Definition contenido_guardado (ahora : fecha) (c : conversacion) : option (list Z) :=
  utf8_encode (volcar 0 (datos_guardados ahora c)).

(** A Python [str] holds code points in [0, 0x10FFFF]. *)
Definition str_valido (s : pystr) : Prop := Forall (fun c => 0 <= c <= 1114111) s.

Definition conversacion_valida (c : conversacion) : Prop :=
  Forall (fun t => str_valido (rol t) /\ str_valido (texto t)) c.

(* ------------------------------------------------------------------ *)
(** ** [modules/llm_conversacion.py] *)

(** One chat message [{"role": ..., "content": ...}]. *)
Record mensaje := mk_mensaje { role : pystr; content : pystr }.

Definition rol_system : pystr := Eval cbv in u "system".
Definition rol_assistant : pystr := Eval cbv in u "assistant".
Definition rol_user : pystr := Eval cbv in u "user".

Definition instruccion_final : pystr := Eval cbv in
  u "Genera la siguiente pregunta del entrevistador basada en la conversación anterior. Solo devuelve la pregunta sin explicaciones adicionales o prefijos.".

(** [rol_api = "assistant" if rol == "entrevistador" else "user"]. *)
Definition rol_api (rol : pystr) : pystr :=
  if list_eq_dec Z.eq_dec rol rol_entrevistador then rol_assistant else rol_user.

(** The [mensajes] list built by [OpenRouterConversacion.generar_pregunta]. *)
Definition mensajes (prompt_base : pystr) (conversacion : conversacion) : list mensaje :=
  [mk_mensaje rol_system prompt_base]
  ++ map (fun m => mk_mensaje (rol_api (rol m)) (texto m)) conversacion
  ++ [mk_mensaje rol_user instruccion_final].

(** What [requests.post] gives back.  [FalloTransporte]: it raises a
    [requests] exception (connection error, timeout, ...);
    [Interrupcion_post]: the user presses CTRL+C while it runs
    ([KeyboardInterrupt]); otherwise a response with its [ok] flag and
    what [response.json()] does on its body: a decoded JSON value, a
    [JSONDecodeError], or a [KeyboardInterrupt] raised while the body is
    read. *)
Inductive cuerpo_http :=
| CuerpoJson (j : json)
| CuerpoInvalido
| CuerpoInterrumpido.

Inductive respuesta_http :=
| FalloTransporte
| Interrupcion_post
| RespuestaHttp (ok : bool) (cuerpo : cuerpo_http).

(** A call to [generar_pregunta] returns a [str] or lets a
    [KeyboardInterrupt] through. *)
Inductive resultado_generacion :=
| Devuelve (s : pystr)
| Interrumpido.

Definition clave_choices : pystr := Eval cbv in u "choices".
Definition clave_message : pystr := Eval cbv in u "message".
Definition clave_content : pystr := Eval cbv in u "content".
Definition prefijo_entrevistador : pystr := Eval cbv in u "Entrevistador:".

Definition pregunta_fallo_transporte : pystr := Eval cbv in
  u "¿Cómo relacionarías tu experiencia previa con este puesto específicamente?".
Definition pregunta_fallo_forma : pystr := Eval cbv in
  u "¿Podrías contarme más sobre tus habilidades técnicas?".
Definition pregunta_fallo_cliente : pystr := Eval cbv in
  u "Interesante. ¿Puedes contarme más sobre tu experiencia en ese aspecto?".

Definition str_eqb (a b : pystr) : bool :=
  if list_eq_dec Z.eq_dec a b then true else false.

(** [k in v] for a [str] [k]: key of a [dict], element of a [list],
    substring of a [str]; [None] is the [TypeError] raised for a number,
    a [bool] or [None]. *)
Definition py_in (k : pystr) (v : json) : option bool :=
  match v with
  | JObj kv => Some (existsb (fun '(k', _) => str_eqb k' k) kv)
  | JArr l => Some (existsb (fun x => match x with JStr s => str_eqb s k | _ => false end) l)
  | JStr s => Some (contiene s k)
  | _ => None
  end.

(** [v[k]] for a [str] [k]; [None] is the [KeyError] of a [dict] or the
    [TypeError] of any other value. *)
Definition py_getitem (v : json) (k : pystr) : option json :=
  match v with
  | JObj kv => dict_get kv k
  | _ => None
  end.

(** [len(v) > 0]; [None] is the [TypeError] of a value without [len].  A
    [dict] is empty exactly when the JSON object has no member. *)
Definition py_len_positivo (v : json) : option bool :=
  match v with
  | JStr s => Some (negb (match s with [] => true | _ => false end))
  | JArr l => Some (negb (match l with [] => true | _ => false end))
  | JObj kv => Some (negb (match kv with [] => true | _ => false end))
  | _ => None
  end.

(** [v[0]]: first element of a [list], first character of a [str]; a
    [dict] decoded from JSON has only [str] keys, so [0] is a [KeyError]. *)
Definition py_index0 (v : json) : option json :=
  match v with
  | JArr (x :: _) => Some x
  | JStr (c :: _) => Some (JStr [c])
  | _ => None
  end.

(** What the [if] chain of lines 112-121 does with [resultado]:
    reach line 114 with the [content] value, fall through to the
    response-shape fallback, or raise (any exception there, including the
    [AttributeError] of [.strip()] on a value that is not a [str]). *)
Inductive extraccion :=
| Contenido (s : pystr)
| FalloForma
| Excepcion.

Definition extraer (resultado : json) : extraccion :=
  match py_in clave_choices resultado with
  | None => Excepcion
  | Some false => FalloForma
  | Some true =>
      match py_getitem resultado clave_choices with
      | None => Excepcion
      | Some choices =>
          match py_len_positivo choices with
          | None => Excepcion
          | Some false => FalloForma
          | Some true =>
              match py_index0 choices with
              | None => Excepcion
              | Some c0 =>
                  match py_in clave_message c0 with
                  | None => Excepcion
                  | Some false => FalloForma
                  | Some true =>
                      match py_getitem c0 clave_message with
                      | None => Excepcion
                      | Some m =>
                          match py_in clave_content m with
                          | None => Excepcion
                          | Some false => FalloForma
                          | Some true =>
                              match py_getitem m clave_content with
                              | Some (JStr s) => Contenido s
                              | _ => Excepcion
                              end
                          end
                      end
                  end
              end
          end
      end
  end.

(** Lines 114-116: [.strip()], every ["Entrevistador:"] replaced by the
    empty string, [.strip()] again. *)
Definition limpiar (s : pystr) : pystr :=
  py_strip (py_replace (py_strip s) prefijo_entrevistador []).

(** [OpenRouterConversacion.generar_pregunta]; [enviar] is the server,
    which answers the message list of the payload.  On a response that is
    not [ok] the body is read inside [try: ... except: pass], which also
    swallows a [KeyboardInterrupt]; [raise_for_status()] then raises an
    [HTTPError], caught by [except Exception].  The CTRL+C modelled here
    is the one that arrives during the request or the reading of a body;
    one that arrives elsewhere in the call (the loop that builds the
    messages, a [print], [raise_for_status()]) escapes it as well, and the
    session model gives it as [EInterrupcion] at [Generar c]. *)
Definition OpenRouterConversacion_generar_pregunta (prompt_base : pystr)
    (conversacion : conversacion) (enviar : list mensaje -> respuesta_http)
    : resultado_generacion :=
  match enviar (mensajes prompt_base conversacion) with
  | FalloTransporte => Devuelve pregunta_fallo_transporte
  | Interrupcion_post => Interrumpido
  | RespuestaHttp false _ => Devuelve pregunta_fallo_transporte
  | RespuestaHttp true CuerpoInvalido => Devuelve pregunta_fallo_transporte
  | RespuestaHttp true CuerpoInterrumpido => Interrumpido
  | RespuestaHttp true (CuerpoJson j) =>
      match extraer j with
      | Contenido s => Devuelve (limpiar s)
      | FalloForma => Devuelve pregunta_fallo_forma
      | Excepcion => Devuelve pregunta_fallo_transporte
      end
  end.

(** The module-level [generar_pregunta]: the constructor of
    [OpenRouterConversacion] raises [ValueError] when
    [OPENROUTER_API_KEY] is unset or empty, caught by [except Exception]. *)
Definition generar_pregunta (api_key : option pystr) (conversacion : conversacion)
    (prompt_base : pystr) (enviar : list mensaje -> respuesta_http)
    : resultado_generacion :=
  match api_key with
  | None | Some [] => Devuelve pregunta_fallo_cliente
  | Some _ => OpenRouterConversacion_generar_pregunta prompt_base conversacion enviar
  end.

(** The calls of [generar_pregunta] in which an exception was caught and
    a fallback question returned. *)
Definition generacion_fallida (api_key : option pystr) (conversacion : conversacion)
    (prompt_base : pystr) (enviar : list mensaje -> respuesta_http) : bool :=
  match api_key with
  | None | Some [] => true
  | Some _ =>
      match enviar (mensajes prompt_base conversacion) with
      | FalloTransporte => true
      | Interrupcion_post => false
      | RespuestaHttp false _ => true
      | RespuestaHttp true CuerpoInvalido => true
      | RespuestaHttp true CuerpoInterrumpido => false
      | RespuestaHttp true (CuerpoJson j) =>
          match extraer j with Contenido _ => false | _ => true end
      end
  end.

(* ------------------------------------------------------------------ *)
(** ** [main.py]: [ejecutar_entrevista] *)

Definition pregunta_inicial : pystr := Eval cbv in
  u "Hola, bienvenido a esta entrevista. ¿Podrías presentarte brevemente y contarme sobre tu experiencia profesional?".

Definition marcador_gracias : pystr := Eval cbv in u "gracias por tu tiempo".
Definition marcador_finalizar : pystr := Eval cbv in u "finalizar".

(** Line 108. *)
Definition marcador (nueva_pregunta : pystr) : bool :=
  contiene (py_lower nueva_pregunta) marcador_gracias
  || contiene (py_lower nueva_pregunta) marcador_finalizar.

(** [not respuesta.strip()], line 88. *)
Definition vacia (respuesta : pystr) : bool :=
  match py_strip respuesta with [] => true | _ => false end.

Definition turno_entrevistador (s : pystr) : turno := mk_turno rol_entrevistador s.
Definition turno_candidato (s : pystr) : turno := mk_turno rol_candidato s.

(** The program points of the session, each with the [conversacion] list
    as it is there.
    - [EsperaEnter c]: line 82, [input(...)];
    - [Grabar c]: line 86, [grabar_y_transcribir()];
    - [Revisar c r]: lines 88-99, the test of the answer [r], its print
      and [append];
    - [GuardarParcial c]: line 102;
    - [Generar c]: line 105;
    - [RevisarCierre c g]: line 108, with the question [g];
    - [CierreAnadir c g]: lines 109-115, print, speech and [append];
    - [CierreGuardar c]: line 116;
    - [Despedida c]: line 117;
    - [Presentar c g]: lines 121-130, print, speech and [append];
    - [Manejador c]: the [except KeyboardInterrupt] block, lines 134-138;
    - [Terminado c]: [ejecutar_entrevista] returned;
    - [Abortado c]: an exception left [ejecutar_entrevista]. *)
Inductive punto :=
| EsperaEnter (c : conversacion)
| Grabar (c : conversacion)
| Revisar (c : conversacion) (r : pystr)
| GuardarParcial (c : conversacion)
| Generar (c : conversacion)
| RevisarCierre (c : conversacion) (g : pystr)
| CierreAnadir (c : conversacion) (g : pystr)
| CierreGuardar (c : conversacion)
| Despedida (c : conversacion)
| Presentar (c : conversacion) (g : pystr)
| Manejador (c : conversacion)
| Terminado (c : conversacion)
| Abortado (c : conversacion).

Definition conversacion_de (p : punto) : conversacion :=
  match p with
  | EsperaEnter c | Grabar c | Revisar c _ | GuardarParcial c | Generar c
  | RevisarCierre c _ | CierreAnadir c _ | CierreGuardar c | Despedida c
  | Presentar c _ | Manejador c | Terminado c | Abortado c => c
  end.

(** What happens at a step: an internal step, ENTER pressed, the text
    returned by [grabar_y_transcribir], an exception other than
    [KeyboardInterrupt] raised by [input] or by the recording, a call of
    [guardar_conversacion] at time [t], a call of [generar_pregunta]
    whose HTTP request is answered by [resp], and CTRL+C. *)
Inductive evento :=
| ETau
| EEnter
| ECaptura (r : pystr)
| EExcepcion
| EGuarda (t : fecha)
| EGenera (resp : respuesta_http)
| EInterrupcion.

Record estado := mk_estado { pc : punto; archivos : almacen }.

Section Sesion.

(** The logger built at line 58, the text of [data/prompt_base.txt] and
    the value of [OPENROUTER_API_KEY]. *)
Variable lg : EntrevistaLogger.
Variable prompt_base : pystr.
Variable api_key : option pystr.

(** [logger.guardar_conversacion(c)] followed by the point [siguiente];
    an exception of the call leaves [ejecutar_entrevista]. *)
Definition persistir (c : conversacion) (t : fecha) (fs : almacen) (siguiente : punto) : estado :=
  match guardar_conversacion lg fs t c with
  | Ok (fs', _) => mk_estado siguiente fs'
  | Err _ => mk_estado (Abortado c) fs
  end.

(** Where CTRL+C leads from a point: inside the [try] block to the
    handler; in the handler the second [KeyboardInterrupt] leaves the
    function. *)
Definition interrumpir (p : punto) : option punto :=
  match p with
  | Terminado _ | Abortado _ => None
  | Manejador c => Some (Abortado c)
  | p => Some (Manejador (conversacion_de p))
  end.

Definition paso (s : estado) (e : evento) : option estado :=
  let fs := archivos s in
  match pc s, e with
  | EsperaEnter c, EEnter => Some (mk_estado (Grabar c) fs)
  | EsperaEnter c, EExcepcion => Some (mk_estado (Abortado c) fs)
  | Grabar c, ECaptura r => Some (mk_estado (Revisar c r) fs)
  | Grabar c, EExcepcion => Some (mk_estado (Abortado c) fs)
  | Revisar c r, ETau =>
      if vacia r then Some (mk_estado (EsperaEnter c) fs)
      else Some (mk_estado (GuardarParcial (c ++ [turno_candidato r])) fs)
  | GuardarParcial c, EGuarda t => Some (persistir c t fs (Generar c))
  | Generar c, EGenera resp =>
      match generar_pregunta api_key c prompt_base (fun _ => resp) with
      | Devuelve g => Some (mk_estado (RevisarCierre c g) fs)
      | Interrumpido => Some (mk_estado (Manejador c) fs)
      end
  | RevisarCierre c g, ETau =>
      if marcador g then Some (mk_estado (CierreAnadir c g) fs)
      else Some (mk_estado (Presentar c g) fs)
  | CierreAnadir c g, ETau => Some (mk_estado (CierreGuardar (c ++ [turno_entrevistador g])) fs)
  | CierreGuardar c, EGuarda t => Some (persistir c t fs (Despedida c))
  | Despedida c, ETau => Some (mk_estado (Terminado c) fs)
  | Presentar c g, ETau => Some (mk_estado (EsperaEnter (c ++ [turno_entrevistador g])) fs)
  | Manejador c, EGuarda t => Some (persistir c t fs (Terminado c))
  | p, EInterrupcion =>
      match interrumpir p with
      | Some p' => Some (mk_estado p' fs)
      | None => None
      end
  | _, _ => None
  end.

(** A run: the events in order, [None] when one of them cannot happen. *)
Fixpoint ejecutar (s : estado) (l : list evento) : option estado :=
  match l with
  | [] => Some s
  | e :: l' =>
      match paso s e with
      | Some s' => ejecutar s' l'
      | None => None
      end
  end.

(** The state at the [try] of line 79, with the opening question
    appended. *)
Definition inicio (fs : almacen) : estado :=
  mk_estado (EsperaEnter [turno_entrevistador pregunta_inicial]) fs.

End Sesion.

(** The conversation alternates, starting with the interviewer when
    [entrevistador] is [true]. *)
Fixpoint alterna (entrevistador : bool) (c : conversacion) : bool :=
  match c with
  | [] => true
  | t :: r =>
      str_eqb (rol t) (if entrevistador then rol_entrevistador else rol_candidato)
      && alterna (negb entrevistador) r
  end.

(** The order of turns the specification states: a non-empty
    conversation that starts with the interviewer and alternates, except
    that the last two turns may both be the interviewer's. *)
Definition patron_sesion (c : conversacion) : bool :=
  match c with
  | [] => false
  | _ =>
      alterna true c
      || (alterna true (removelast c)
          && match rev c with t :: _ => str_eqb (rol t) rol_entrevistador | [] => false end)
  end.

(* ------------------------------------------------------------------ *)
(** ** [EntrevistaLogger.generar_resumen] *)

(** Truth value of a Python value ([if not conversacion]). *)
Definition py_truthy (v : json) : bool :=
  match v with
  | JNull => false
  | JBool b => b
  | JNum z => negb (z =? 0)
  | JStr s => negb (match s with [] => true | _ => false end)
  | JArr l => negb (match l with [] => true | _ => false end)
  | JObj kv => negb (match kv with [] => true | _ => false end)
  end.

(** The keys of the [dict] built from a JSON object, in the order of
    their first occurrence. *)
Definition claves_dict (kv : list (pystr * json)) : list pystr :=
  fold_left (fun acc '(k, _) => if existsb (str_eqb k) acc then acc else acc ++ [k]) kv [].

(** [for m in v]: the items of a [list], the one-character strings of a
    [str], the keys of a [dict]; [None] is the [TypeError] of a number,
    a [bool] or [None]. *)
Definition py_iter (v : json) : option (list json) :=
  match v with
  | JArr l => Some l
  | JStr s => Some (map (fun c => JStr [c]) s)
  | JObj kv => Some (map JStr (claves_dict kv))
  | _ => None
  end.

(** [m["rol"] == r]; [None] is the exception of [m["rol"]]. *)
Definition es_rol (m : json) (r : pystr) : option bool :=
  match py_getitem m clave_rol with
  | Some (JStr s) => Some (str_eqb s r)
  | Some _ => Some false
  | None => None
  end.

(** [sum(1 for m in conversacion if m["rol"] == r)]. *)
Fixpoint contar_rol (l : list json) (r : pystr) : option nat :=
  match l with
  | [] => Some 0%nat
  | m :: l' =>
      match es_rol m r, contar_rol l' r with
      | Some b, Some n => Some ((if b then 1 else 0) + n)%nat
      | _, _ => None
      end
  end.

(** The items [m["texto"] for m in conversacion if m["rol"] == r] that
    [" ".join] receives; [None] is an exception: of [m["rol"]], of
    [m["texto"]], or the [TypeError] of [join] on an item that is not a
    [str]. *)
Fixpoint textos_rol (l : list json) (r : pystr) : option (list pystr) :=
  match l with
  | [] => Some []
  | m :: l' =>
      match es_rol m r with
      | None => None
      | Some false => textos_rol l' r
      | Some true =>
          match py_getitem m clave_texto, textos_rol l' r with
          | Some (JStr s), Some ts => Some (s :: ts)
          | _, _ => None
          end
      end
  end.

(** [str.split()] with no argument: the maximal runs of
    non-whitespace code points; [palabra] is the run read so far, in
    reverse. *)
Fixpoint py_split_aux (s : pystr) (palabra : pystr) : list pystr :=
  match s with
  | [] => match palabra with [] => [] | _ => [rev palabra] end
  | c :: r =>
      if py_isspace c then
        match palabra with
        | [] => py_split_aux r []
        | _ => rev palabra :: py_split_aux r []
        end
      else py_split_aux r (c :: palabra)
  end.

Definition py_split (s : pystr) : list pystr := py_split_aux s [].

(** The [resumen] dictionary; [duracion_estimada_minutos] is the [float]
    [len(conversacion) * 0.5], an exact rational. *)
Record resumen := mk_resumen {
  turnos_totales : nat;
  turnos_entrevistador : nat;
  turnos_candidato : nat;
  palabras_entrevistador : nat;
  palabras_candidato : nat;
  duracion_estimada_minutos : Q;
  primera_pregunta : json;
  ultima_interaccion : json }.

(** What [generar_resumen] does: the error dictionary
    [{"error": "No se encontró conversación para resumir"}], a summary, or
    an exception that leaves the method. *)
Inductive salida_resumen :=
| SinConversacion
| Resumen (r : resumen)
| Lanza.

(** [EntrevistaLogger.generar_resumen].  The exceptions of
    [cargar_conversacion] that escape it escape here too. *)
Definition generar_resumen (lg : EntrevistaLogger) (fs : almacen) (archivo : option pystr)
    : salida_resumen :=
  match cargar_conversacion lg fs archivo with
  | Err _ => Lanza
  | Ok conversacion =>
      if negb (py_truthy conversacion) then SinConversacion
      else
        match py_iter conversacion with
        | None => Lanza
        | Some l =>
            match contar_rol l rol_entrevistador, contar_rol l rol_candidato,
                  textos_rol l rol_entrevistador, textos_rol l rol_candidato with
            | Some ne, Some nc, Some te, Some tc =>
                match conversacion with
                | JArr ((m0 :: _) as ms) =>
                    match py_getitem m0 clave_texto, py_getitem (last ms m0) clave_texto with
                    | Some primera, Some ultima =>
                        Resumen (mk_resumen (List.length ms) ne nc
                                   (List.length (py_split (unir [32] te)))
                                   (List.length (py_split (unir [32] tc)))
                                   (Qmult (inject_Z (Z.of_nat (List.length ms))) (Qmake 1 2))
                                   primera ultima)
                    | _, _ => Lanza
                    end
                (* a [str] or a [dict] has already failed at [m["rol"]] *)
                | _ => Lanza
                end
            | _, _, _, _ => Lanza
            end
        end
  end.

(* ------------------------------------------------------------------ *)
(** ** [EntrevistaLogger.listar_entrevistas] *)

Definition prefijo_entrevista : pystr := Eval cbv in u "entrevista_".
Definition sufijo_json : pystr := Eval cbv in u ".json".

(** [s.endswith(suf)]. *)
Definition py_endswith (s suf : pystr) : bool := es_prefijo (rev suf) (rev s).

(** [a < b] on two [str]: code point by code point, a proper prefix
    first. *)
Fixpoint str_menor (a b : pystr) : bool :=
  match a, b with
  | _, [] => false
  | [], _ :: _ => true
  | x :: a', y :: b' => if x <? y then true else if y <? x then false else str_menor a' b'
  end.

Fixpoint insertar (x : pystr) (l : list pystr) : list pystr :=
  match l with
  | [] => [x]
  | y :: l' => if str_menor y x then y :: insertar x l' else x :: l
  end.

(** [sorted(l)] for a list of [str]: equal strings cannot be told apart,
    so every stable sort gives this list. *)
Definition py_sorted (l : list pystr) : list pystr := fold_right insertar [] l.

(** [EntrevistaLogger.listar_entrevistas]; [listdir] is [os.listdir], an
    arbitrary order of the names in a directory, [None] when it raises
    (the exception is printed and [[]] returned). *)
Definition listar_entrevistas (lg : EntrevistaLogger) (listdir : pystr -> option (list pystr))
    : list pystr :=
  match listdir (directorio lg) with
  | None => []
  | Some archivos =>
      py_sorted (filter (fun f => es_prefijo prefijo_entrevista f && py_endswith f sufijo_json)
                        archivos)
  end.

(** The name that [EntrevistaLogger.__init__] gives the output file,
    without the directory. *)
Definition nombre_archivo (ahora : fecha) : pystr :=
  u "entrevista_" ++ sello ahora ++ u ".json".

(** A reading of the clock as [datetime] allows it, with a four-digit
    year. *)
Definition fecha_valida (t : fecha) : bool :=
  (1000 <=? anio t) && (anio t <=? 9999) && (1 <=? mes t) && (mes t <=? 12)
  && (1 <=? dia t) && (dia t <=? 31) && (0 <=? hora t) && (hora t <=? 23)
  && (0 <=? minuto t) && (minuto t <=? 59) && (0 <=? segundo t) && (segundo t <=? 59)
  && (0 <=? microsegundo t) && (microsegundo t <=? 999999).

(** The reading truncated to the second. *)
Definition campos_segundo (t : fecha) : list Z :=
  [anio t; mes t; dia t; hora t; minuto t; segundo t].

Fixpoint lex_menor (a b : list Z) : bool :=
  match a, b with
  | x :: a', y :: b' => if x <? y then true else if x =? y then lex_menor a' b' else false
  | _, _ => false
  end.

(* ------------------------------------------------------------------ *)
(** ** The model sent to OpenRouter *)

Definition modelo_por_defecto : pystr := Eval cbv in u "meta-llama/llama-3.3-8b-instruct:free".
Definition nombre_corto : pystr := Eval cbv in u "meta-llama".

(** [if modelo in modelo_mapping: modelo = modelo_mapping[modelo]], with
    the one-entry [modelo_mapping] of lines 37-39 and 152-154. *)
Definition aplicar_mapping (modelo : pystr) : pystr :=
  if str_eqb modelo nombre_corto then modelo_por_defecto else modelo.

(** Lines 149-158 of the module-level [generar_pregunta]:
    [nombre_modelo or "meta-llama/llama-3.3-8b-instruct:free"], then the
    mapping. *)
Definition modelo_especifico (nombre_modelo : option pystr) : pystr :=
  aplicar_mapping (match nombre_modelo with
                   | None | Some [] => modelo_por_defecto
                   | Some s => s
                   end).

(** [OpenRouterConversacion.__init__] applies the mapping again before
    storing [self.modelo]. *)
Definition OpenRouterConversacion_modelo (modelo : pystr) : pystr := aplicar_mapping modelo.

Record payload := mk_payload {
  model : pystr;
  messages : list mensaje;
  max_tokens : Z;
  temperature : Q }.

(** The [payload] of lines 81-86. *)
Definition construir_payload (modelo prompt_base : pystr) (c : conversacion) : payload :=
  mk_payload modelo (mensajes prompt_base c) 250 (Qmake 7 10).

(** The [payload] posted by [generar_pregunta(conversacion, prompt_base,
    nombre_modelo)] once the client is built. *)
Definition payload_enviado (nombre_modelo : option pystr) (prompt_base : pystr)
    (c : conversacion) : payload :=
  construir_payload (OpenRouterConversacion_modelo (modelo_especifico nombre_modelo)) prompt_base c.

(** [args.modelo] in [main]: the value of [--modelo] when it is given
    (the last one), which [argparse] checks against
    [choices=['claude', 'gpt']]; [None] when [argparse] refuses it and
    exits.  The default ['meta-llama'] is not checked. *)
Definition args_modelo (valor : option pystr) : option pystr :=
  match valor with
  | None => Some nombre_corto
  | Some v => if existsb (str_eqb v) [u "claude"; u "gpt"] then Some v else None
  end.

(* ------------------------------------------------------------------ *)
(** ** [modules/whisper_stt.py]: [grabar_audio] *)

(** [umbral_silencio = 0.02].  [grabacion[i]] is a row of the [float32]
    array that [sd.rec] returns, and NumPy compares a [float32] array
    with a Python [float] in [float32]: the threshold is [float32(0.02)],
    the [float32] nearest to 0.02, which is 10737418 / 2^29, slightly
    below 0.02.  The samples are [float32] values, read exactly as
    rationals, so comparing them with this rational is the [float32]
    comparison. *)
Definition umbral_silencio : Q := Qmake 10737418 536870912.

(** [abs(grabacion[i]) < umbral_silencio]. *)
Definition es_silencio (x : Q) : bool := negb (Qle_bool umbral_silencio (Qabs x)).

(** [l[:k]] for an [int] [k]: a negative [k] counts from the end. *)
Definition py_slice_hasta {A : Type} (l : list A) (k : Z) : list A :=
  if k <? 0 then firstn (List.length l - Z.to_nat (- k)) l else firstn (Z.to_nat k) l.

(** The loop of lines 65-75 from index [i], with [restantes] iterations
    left and the counter [contador_silencio]. *)
Fixpoint vigilar (grabacion : list Q) (muestras_silencio : nat) (i restantes contador : nat)
    : list Q :=
  match restantes with
  | O => grabacion
  | S k =>
      let contador' :=
        if Nat.ltb i (List.length grabacion) && es_silencio (nth i grabacion 0%Q)
        then S contador else O in
      if Nat.leb muestras_silencio contador'
      then py_slice_hasta grabacion (Z.of_nat i - Z.of_nat muestras_silencio)
      else vigilar grabacion muestras_silencio (S i) k contador'
  end.

(** [grabar_audio(duracion_max, fs)]; [grabacion] is the array that
    [sd.rec] has filled once [sd.wait()] returns, one sample per frame.
    [int(tiempo_silencio * fs)] is [2 * fs]. *)
Definition grabar_audio (duracion_max fs : nat) (grabacion : list Q) : list Q :=
  vigilar grabacion (2 * fs) 0 (duracion_max * fs) 0.

(** The [m] samples from index [j] on are all recorded and below the
    threshold. *)
Definition ventana_silencio (grabacion : list Q) (m j : nat) : bool :=
  forallb (fun d => Nat.ltb (j + d) (List.length grabacion)
                    && es_silencio (nth (j + d) grabacion 0%Q)) (seq 0 m).

(* ------------------------------------------------------------------ *)
(** ** Predicates used in the proofs *)

Definition no_negativos (s : pystr) : Prop := Forall (fun c => 0 <= c) s.

Definition turno_valido (t : turno) : Prop :=
  no_negativos (rol t) /\ no_negativos (texto t).

Definition sin_cr (s : pystr) : Prop := Forall (fun x => x <> 13) s.

Definition cerrado (p : punto) : bool :=
  match p with Manejador _ | Terminado _ | Abortado _ => true | _ => false end.

Definition en_espera (c : conversacion) (fs : almacen) (s : estado) : Prop :=
  archivos s = fs /\
  (pc s = EsperaEnter c \/ pc s = Grabar c \/ exists r, pc s = Revisar c r /\ vacia r = true).

Definition sin_interrupcion_ni_respuesta (e : evento) : Prop :=
  e <> EInterrupcion /\ e <> EExcepcion /\ (forall r, e = ECaptura r -> vacia r = true).



Definition inv_alterna (p : punto) : Prop :=
  alterna true (conversacion_de p) = true /\ conversacion_de p <> []
  /\ match p with
     | EsperaEnter c | Grabar c | Revisar c _ | CierreGuardar c | Despedida c =>
         Nat.even (List.length c) = false
     | GuardarParcial c | Generar c | RevisarCierre c _ | CierreAnadir c _ | Presentar c _ =>
         Nat.even (List.length c) = true
     | _ => True
     end.

(** The output file holds the saved document of [c]. *)
Definition guardado_en (lg : EntrevistaLogger) (c : conversacion) (fs : almacen) : Prop :=
  exists t b, contenido_guardado t c = Some b /\ fs (archivo_salida lg) = Some b.

Definition archivo_al_dia (lg : EntrevistaLogger) (fs0 : almacen) (c : conversacion) (fs : almacen) : Prop :=
  (c = [turno_entrevistador pregunta_inicial] /\ fs (archivo_salida lg) = fs0 (archivo_salida lg))
  \/ exists c' g, c = c' ++ [turno_entrevistador g] /\ guardado_en lg c' fs.

Definition inv_archivo (lg : EntrevistaLogger) (fs0 : almacen) (s : estado) : Prop :=
  match pc s with
  | EsperaEnter c | Grabar c | Revisar c _ => archivo_al_dia lg fs0 c (archivos s)
  | GuardarParcial c =>
      exists c0 r, c = c0 ++ [turno_candidato r] /\ archivo_al_dia lg fs0 c0 (archivos s)
  | Generar c | RevisarCierre c _ | CierreAnadir c _ | Presentar c _ => guardado_en lg c (archivos s)
  | CierreGuardar c =>
      exists c' g, c = c' ++ [turno_entrevistador g] /\ guardado_en lg c' (archivos s)
  | Despedida _ | Manejador _ | Terminado _ | Abortado _ => True
  end.

(** The number of consecutive silent samples that end at index [n - 1]:
    the value of [contador_silencio] after the iteration of index
    [n - 1]. *)
Fixpoint racha (g : list Q) (n : nat) : nat :=
  match n with
  | O => O
  | S i => if Nat.ltb i (List.length g) && es_silencio (nth i g 0%Q) then S (racha g i) else O
  end.

(** [n mod 10 ^ w] in [w] decimal digits. *)
Fixpoint digitos_fijos (w : nat) (n : Z) : pystr :=
  match w with
  | O => []
  | S w' => digitos_fijos w' (n / 10) ++ [48 + n mod 10]
  end.

(* ------------------------------------------------------------------ *)
(** ** Concrete inputs *)

Definition almacen_vacio : almacen := fun _ => None.

Definition logger_ejemplo : EntrevistaLogger :=
  EntrevistaLogger_init (u "transcripts") (mk_fecha 2025 5 17 10 30 0 0).

Definition prompt_ejemplo : pystr := Eval cbv in u "Eres un entrevistador técnico.".
Definition clave_ejemplo : option pystr := Some (u "sk-or-clave").
Definition respuesta_ejemplo : pystr := Eval cbv in u "Trabajo con Python desde 2019.".
Definition despedida_ejemplo : pystr := Eval cbv in
  u "Gracias por tu tiempo. La entrevista ha terminado.".

Definition conversacion_ejemplo : conversacion :=
  [turno_entrevistador pregunta_inicial; turno_candidato respuesta_ejemplo].

Definition fecha_1 : fecha := mk_fecha 2025 5 17 10 31 0 1.
Definition fecha_2 : fecha := mk_fecha 2025 5 17 10 31 0 2.

(** The files after one [guardar_conversacion] (unchanged on an error). *)
Definition archivos_tras (lg : EntrevistaLogger) (fs : almacen) (t : fecha) (c : conversacion) : almacen :=
  match guardar_conversacion lg fs t c with Ok (fs', _) => fs' | Err _ => fs end.

(** [{"choices": [{"message": {"content": s}}]}]. *)
Definition respuesta_con (s : pystr) : json :=
  JObj [(clave_choices, JArr [JObj [(clave_message, JObj [(clave_content, JStr s)])]])].

(** A session: an answer, the question that closes the interview. *)
Definition eventos_ejemplo : list evento :=
  [EEnter; ECaptura respuesta_ejemplo; ETau; EGuarda fecha_1;
   EGenera (RespuestaHttp true (CuerpoJson (respuesta_con despedida_ejemplo)));
   ETau; ETau; EGuarda fecha_2; ETau].

Definition estado_ejemplo : estado :=
  match ejecutar logger_ejemplo prompt_ejemplo clave_ejemplo (inicio almacen_vacio) eventos_ejemplo with
  | Some s => s
  | None => inicio almacen_vacio
  end.

(** A question of the model, and the same question as a model may write
    it: padded with blanks, behind the label ["Entrevistador:"] and with a
    line break at the end. *)
Definition pregunta_ejemplo : pystr := Eval cbv in
  u "¿Qué proyecto con Python te resultó más difícil?".
Definition respuesta_sucia : pystr :=
  [32; 32] ++ prefijo_entrevistador ++ [32] ++ pregunta_ejemplo ++ [10].

(** A session up to the second wait for ENTER: an answer, then a question
    that does not close the interview. *)
Definition eventos_continua : list evento :=
  [EEnter; ECaptura respuesta_ejemplo; ETau; EGuarda fecha_1;
   EGenera (RespuestaHttp true (CuerpoJson (respuesta_con pregunta_ejemplo)));
   ETau; ETau].

Definition estado_continua : estado :=
  match ejecutar logger_ejemplo prompt_ejemplo clave_ejemplo (inicio almacen_vacio) eventos_continua with
  | Some s => s
  | None => inicio almacen_vacio
  end.

(** A directory of [logger_ejemplo] with two transcripts and a note. *)
Definition archivos_ejemplo : list pystr :=
  [u "entrevista_20250517_103000.json"; u "notas.txt"; u "entrevista_20250516_090000.json"].

Definition listdir_ejemplo (d : pystr) : option (list pystr) :=
  if list_eq_dec Z.eq_dec d (directorio logger_ejemplo) then Some archivos_ejemplo else None.

Definition fecha_0 : fecha := mk_fecha 2025 5 17 10 30 0 0.

(** Three seconds at [fs = 2] samples per second: speech whose middle
    samples are exactly [float32(0.02)], which is not below the
    threshold, an answer followed by silence, and silence first. *)
Definition grabacion_con_voz : list Q :=
  [Qmake 1 2; umbral_silencio; umbral_silencio; umbral_silencio; umbral_silencio; Qmake 1 2]%Q.
Definition grabacion_con_pausa : list Q := [Qmake 1 2; Qmake 1 5; 0; 0; 0; 0]%Q.
Definition grabacion_callada : list Q := [0; 0; 0; 0; Qmake 1 2; Qmake 1 2]%Q.

(* ================================================================== *)
(** * Proofs *)

Ltac zbool :=
  repeat (rewrite ?andb_true_iff, ?andb_false_iff, ?orb_true_iff, ?orb_false_iff,
          ?negb_true_iff, ?negb_false_iff, ?Z.ltb_lt, ?Z.ltb_ge, ?Z.leb_le,
          ?Z.leb_gt, ?Z.eqb_eq, ?Z.eqb_neq in *).

Ltac zsolve := zbool; Z.div_mod_to_equations; lia.

Ltac decidir_if :=
  match goal with
  | |- context [if ?b then _ else _] =>
      let H := fresh "Hb" in
      first [ assert (H : b = true) by (unfold es_continuacion; zsolve)
            | assert (H : b = false) by (unfold es_continuacion; zsolve) ];
      rewrite H; clear H
  end.

(** ** UTF-8: decoding inverts encoding *)


Lemma utf8_cp_decode (c : Z) (bc rest : list Z) :
  utf8_cp c = Some bc ->
  utf8_decode (bc ++ rest) =
  match utf8_decode rest with Some s => Some (c :: s) | None => None end.
Proof.
  unfold utf8_cp; intros H.
  repeat match type of H with
  | context [if ?b then _ else _] =>
      let E := fresh "E" in destruct b eqn:E
  end; try discriminate;
  apply (f_equal (fun o => match o with Some l => l | None => [] end)) in H;
  cbv beta iota in H; subst bc; zbool;
  rewrite <- ?app_comm_cons, ?app_nil_l;
  repeat match goal with
  | |- context [(?a + ?b) :: _] => let x := fresh "x" in remember (a + b) as x
  end;
  cbn [utf8_decode]; repeat decidir_if;
  destruct (utf8_decode rest); try reflexivity;
  repeat f_equal; Z.div_mod_to_equations; lia.
Qed.

Lemma utf8_encode_decode (s : pystr) (b : list Z) :
  utf8_encode s = Some b -> utf8_decode b = Some s.
Proof.
  revert b; induction s as [|c s IH]; intros b H; simpl in H.
  - injection H as <-; reflexivity.
  - destruct (utf8_cp c) as [bc|] eqn:Ec; [|discriminate].
    destruct (utf8_encode s) as [bs|] eqn:Es; [|discriminate].
    injection H as <-. rewrite (utf8_cp_decode c bc bs Ec), (IH bs eq_refl).
    reflexivity.
Qed.

Lemma utf8_cp_rango (c : Z) (bc : list Z) :
  utf8_cp c = Some bc -> 0 <= c.
Proof.
  unfold utf8_cp; destruct (c <? 0) eqn:E; [discriminate|]; zbool; lia.
Qed.

Lemma utf8_encode_rango (s : pystr) (b : list Z) :
  utf8_encode s = Some b -> Forall (fun c => 0 <= c) s.
Proof.
  revert b; induction s as [|c s IH]; intros b H; simpl in H; constructor.
  - destruct (utf8_cp c) eqn:Ec; [|discriminate]. eapply utf8_cp_rango; eauto.
  - destruct (utf8_cp c); [|discriminate].
    destruct (utf8_encode s) eqn:Es; [|discriminate]. eapply IH; eauto.
Qed.

(** ** [json.loads] reads back what [json.dump] writes *)


Lemma leer_cadena_escapada (s rest : pystr) :
  Forall (fun c => 0 <= c) s ->
  leer_cadena (flat_map escapar_cp s ++ 34 :: rest) = Some (s, rest).
Proof.
  induction s as [|a s IH]; intros Hs; [reflexivity|].
  inversion Hs as [|? ? Ha Hs']; subst. specialize (IH Hs').
  cbn [flat_map]; rewrite <- app_assoc.
  destruct (a <? 32) eqn:Hlt; zbool.
  - assert (exists n, a = Z.of_nat n /\ (n < 32)%nat) as [n [-> Hn]]
      by (exists (Z.to_nat a); lia).
    do 32 (destruct n as [|n]; [simpl; rewrite IH; reflexivity|]); lia.
  - destruct (Z.eq_dec a 34) as [->|H34]; [simpl; rewrite IH; reflexivity|].
    destruct (Z.eq_dec a 92) as [->|H92]; [simpl; rewrite IH; reflexivity|].
    assert (Hes : escapar_cp a = [a]) by (unfold escapar_cp; repeat decidir_if; reflexivity).
    rewrite Hes; simpl; repeat decidir_if; rewrite IH; reflexivity.
Qed.

Arguments salto : simpl never.
Arguments codificar_cadena : simpl never.

Lemma saltar_repeat (k : nat) (l : pystr) :
  saltar_blancos (repeat 32 k ++ l) = saltar_blancos l.
Proof. induction k; simpl; auto. Qed.

Lemma saltar_salto (n : nat) (l : pystr) :
  saltar_blancos (salto n ++ l) = saltar_blancos l.
Proof. unfold salto; simpl; apply saltar_repeat. Qed.

Lemma codificar_cabeza (s l : pystr) :
  codificar_cadena s ++ l = 34 :: (flat_map escapar_cp s ++ 34 :: l).
Proof. unfold codificar_cadena; simpl; rewrite <- app_assoc; reflexivity. Qed.

Lemma saltar_cadena (s l : pystr) :
  saltar_blancos (codificar_cadena s ++ l) = codificar_cadena s ++ l.
Proof. rewrite codificar_cabeza; reflexivity. Qed.

Lemma leer_valor_cadena (f : nat) (s rest : pystr) :
  no_negativos s ->
  leer_valor (S f) (codificar_cadena s ++ rest) = Some (JStr s, rest).
Proof.
  intros Hs; rewrite codificar_cabeza; simpl.
  rewrite (leer_cadena_escapada s rest Hs); reflexivity.
Qed.

Lemma leer_miembros_paso (f : nat) (k V R : pystr) (v : json) acc :
  no_negativos k ->
  saltar_blancos (V ++ R) = V ++ R ->
  leer_valor f (V ++ R) = Some (v, R) ->
  leer_miembros (S f) (codificar_cadena k ++ [58; 32] ++ V ++ R) acc =
  match saltar_blancos R with
  | 44 :: r4 => leer_miembros f (saltar_blancos r4) (acc ++ [(k, v)])
  | 125 :: r4 => Some (JObj (acc ++ [(k, v)]), r4)
  | _ => None
  end.
Proof.
  intros Hk H0 H1; rewrite codificar_cabeza; simpl.
  rewrite (leer_cadena_escapada k _ Hk); simpl.
  rewrite H0, H1; reflexivity.
Qed.

Lemma leer_elementos_paso (f : nat) (V R : pystr) (v : json) acc :
  leer_valor f (V ++ R) = Some (v, R) ->
  leer_elementos (S f) (V ++ R) acc =
  match saltar_blancos R with
  | 44 :: r2 => leer_elementos f (saltar_blancos r2) (acc ++ [v])
  | 93 :: r2 => Some (JArr (acc ++ [v]), r2)
  | _ => None
  end.
Proof. intros H; simpl; rewrite H; reflexivity. Qed.

Lemma leer_valor_objeto (f n : nat) (X : pystr) :
  (exists Y, X = 34 :: Y) ->
  leer_valor (S f) ([123] ++ salto n ++ X) = leer_miembros f X [].
Proof. intros [Y ->]; simpl; rewrite ?saltar_salto, ?saltar_repeat; reflexivity. Qed.

Lemma leer_valor_arreglo (f n : nat) (X : pystr) :
  (exists Y, X = 123 :: Y) ->
  leer_valor (S f) ([91] ++ salto n ++ X) = leer_elementos f X [].
Proof. intros [Y ->]; simpl; rewrite ?saltar_salto, ?saltar_repeat; reflexivity. Qed.

Lemma volcar_turno (n : nat) (t : turno) :
  volcar n (turno_json t) =
  [123] ++ salto (S n) ++ codificar_cadena clave_rol ++ [58; 32]
  ++ codificar_cadena (rol t) ++ [44] ++ salto (S n)
  ++ codificar_cadena clave_texto ++ [58; 32] ++ codificar_cadena (texto t)
  ++ salto n ++ [125].
Proof.
  unfold turno_json; cbn [volcar map unir flat_map].
  rewrite ?app_nil_r, <- ?app_assoc; reflexivity.
Qed.

Lemma clave_no_negativa_rol : no_negativos clave_rol.
Proof. repeat constructor; discriminate. Qed.
Lemma clave_no_negativa_texto : no_negativos clave_texto.
Proof. repeat constructor; discriminate. Qed.
Lemma clave_no_negativa_timestamp : no_negativos clave_timestamp.
Proof. repeat constructor; discriminate. Qed.
Lemma clave_no_negativa_conversacion : no_negativos clave_conversacion.
Proof. repeat constructor; discriminate. Qed.

Lemma saltar_no_blanco (c : Z) (l : pystr) :
  es_blanco_json c = false -> saltar_blancos (c :: l) = c :: l.
Proof. intros H; simpl; rewrite H; reflexivity. Qed.

Lemma saltar_unir_turno (sep : pystr) (m : nat) (y : turno) ys (W : pystr) :
  saltar_blancos (unir sep (volcar m (turno_json y) :: ys) ++ W)
  = unir sep (volcar m (turno_json y) :: ys) ++ W.
Proof. cbn [unir]; rewrite volcar_turno; reflexivity. Qed.

Ltac paso_blancos :=
  repeat match goal with
  | |- context [saltar_blancos ([?a] ++ ?l)] => change ([a] ++ l) with (a :: l)
  | |- context [saltar_blancos ((?a :: ?l) ++ ?r)] => rewrite <- (app_comm_cons l r a)
  | |- context [saltar_blancos (?a :: ?l)] =>
      rewrite (saltar_no_blanco a l) by reflexivity
  end; cbv beta iota.

Lemma leer_turno (f n : nat) (t : turno) (rest : pystr) :
  turno_valido t ->
  leer_valor (S (S (S (S f)))) (volcar n (turno_json t) ++ rest) = Some (turno_json t, rest).
Proof.
  intros [Hr Ht]; rewrite volcar_turno, <- !app_assoc.
  rewrite leer_valor_objeto by (eexists; apply codificar_cabeza).
  rewrite (leer_miembros_paso _ _ _ _ (JStr (rol t))); [| apply clave_no_negativa_rol | apply saltar_cadena
                              | apply leer_valor_cadena; exact Hr].
  paso_blancos; rewrite saltar_salto, saltar_cadena.
  rewrite (leer_miembros_paso _ _ _ _ (JStr (texto t))); [| apply clave_no_negativa_texto | apply saltar_cadena
                              | apply leer_valor_cadena; exact Ht].
  rewrite saltar_salto; paso_blancos; reflexivity.
Qed.

Lemma unir_cons2 (sep x y : pystr) (ys : list pystr) :
  unir sep (x :: y :: ys) = x ++ sep ++ unir sep (y :: ys).
Proof. simpl; rewrite <- !app_assoc; reflexivity. Qed.

Lemma unir_uno (sep x : pystr) : unir sep [x] = x.
Proof. simpl; apply app_nil_r. Qed.

Lemma volcar_turno_cabeza (n : nat) (t : turno) (l : pystr) :
  exists Y, volcar n (turno_json t) ++ l = 123 :: Y.
Proof. rewrite volcar_turno; eexists; reflexivity. Qed.

Lemma leer_turno_fuel (k n : nat) (t : turno) (rest : pystr) :
  (4 <= k)%nat -> turno_valido t ->
  leer_valor k (volcar n (turno_json t) ++ rest) = Some (turno_json t, rest).
Proof.
  intros Hk Ht; replace k with (S (S (S (S (k - 4))))) by lia.
  apply leer_turno; exact Ht.
Qed.

Lemma leer_lista_turnos (t : turno) (ts : list turno) :
  forall (n f : nat) acc R,
  Forall turno_valido (t :: ts) ->
  leer_elementos (List.length (t :: ts) + 4 + f)
    (unir (44 :: salto (S n)) (map (volcar (S n)) (map turno_json (t :: ts)))
     ++ salto n ++ 93 :: R) acc
  = Some (JArr (acc ++ map turno_json (t :: ts)), R).
Proof.
  revert t; induction ts as [|t' ts IH]; intros t n f acc R Hv;
    inversion Hv as [|? ? Ht Hts]; subst.
  - cbn [map List.length]; rewrite unir_uno.
    replace (1 + 4 + f)%nat with (S (4 + f)) by lia.
    rewrite (leer_elementos_paso _ _ _ (turno_json t))
      by (apply leer_turno_fuel; [lia | exact Ht]).
    rewrite saltar_salto; paso_blancos; reflexivity.
  - cbn [map]; rewrite unir_cons2, <- !app_assoc.
    replace (List.length (t :: t' :: ts) + 4 + f)%nat
      with (S (List.length (t' :: ts) + 4 + f)) by (simpl; lia).
    rewrite (leer_elementos_paso _ _ _ (turno_json t))
      by (apply leer_turno_fuel; [simpl; lia | exact Ht]).
    paso_blancos; rewrite saltar_salto, saltar_unir_turno.
    transitivity (Some (JArr ((acc ++ [turno_json t]) ++ map turno_json (t' :: ts)), R)).
    + apply IH; exact Hts.
    + rewrite <- app_assoc; reflexivity.
Qed.

Lemma volcar_conversacion (n : nat) (t : turno) (ts : list turno) :
  volcar n (conversacion_json (t :: ts)) =
  [91] ++ salto (S n)
  ++ unir (44 :: salto (S n)) (map (volcar (S n)) (map turno_json (t :: ts)))
  ++ salto n ++ [93].
Proof. reflexivity. Qed.

Lemma unir_turnos_cabeza (sep : pystr) (m : nat) (y : turno) ys (W : pystr) :
  exists Y, unir sep (volcar m (turno_json y) :: ys) ++ W = 123 :: Y.
Proof. cbn [unir]; rewrite volcar_turno; eexists; reflexivity. Qed.

Lemma leer_conversacion (c : conversacion) (n f : nat) (R : pystr) :
  Forall turno_valido c ->
  leer_valor (List.length c + 5 + f) (volcar n (conversacion_json c) ++ R)
  = Some (conversacion_json c, R).
Proof.
  intros Hc; destruct c as [|t ts]; [reflexivity|].
  rewrite volcar_conversacion, <- !app_assoc.
  replace (List.length (t :: ts) + 5 + f)%nat with (S (List.length (t :: ts) + 4 + f)) by lia.
  rewrite leer_valor_arreglo by (apply unir_turnos_cabeza).
  change ([93] ++ R) with (93 :: R).
  rewrite leer_lista_turnos by exact Hc; reflexivity.
Qed.

Lemma volcar_datos (t : fecha) (c : conversacion) :
  volcar 0 (datos_guardados t c) =
  [123] ++ salto 1 ++ codificar_cadena clave_timestamp ++ [58; 32]
  ++ codificar_cadena (isoformat t) ++ [44] ++ salto 1
  ++ codificar_cadena clave_conversacion ++ [58; 32]
  ++ volcar 1 (conversacion_json c) ++ salto 0 ++ [125].
Proof.
  unfold datos_guardados; cbn [volcar map unir flat_map].
  rewrite ?app_nil_r, <- ?app_assoc; reflexivity.
Qed.

Lemma saltar_conversacion (n : nat) (c : conversacion) (R : pystr) :
  saltar_blancos (volcar n (conversacion_json c) ++ R) = volcar n (conversacion_json c) ++ R.
Proof. destruct c; reflexivity. Qed.

Lemma digitos_no_negativos (k : nat) (z : Z) : no_negativos (digitos_nat k z).
Proof.
  revert z; induction k as [|k IH]; intros z; cbn [digitos_nat]; [constructor|].
  apply Forall_app; split.
  - destruct (z <? 10); [constructor | apply IH].
  - constructor; [|constructor]. pose proof (Z.mod_pos_bound z 10 ltac:(lia)); lia.
Qed.

Lemma rellenar_no_negativo (w : nat) (z : Z) : no_negativos (rellenar w z).
Proof.
  unfold rellenar; apply Forall_app; split; [|apply digitos_no_negativos].
  apply Forall_forall; intros x Hx; apply repeat_spec in Hx; lia.
Qed.

Lemma isoformat_no_negativo (t : fecha) : no_negativos (isoformat t).
Proof.
  unfold isoformat, no_negativos; rewrite !Forall_app.
  repeat split; try apply rellenar_no_negativo; try (repeat constructor; lia).
  destruct (microsegundo t =? 0); [constructor|].
  constructor; [lia | apply rellenar_no_negativo].
Qed.

Lemma leer_documento (t : fecha) (c : conversacion) (f : nat) :
  Forall turno_valido c ->
  leer_valor (List.length c + 8 + f) (volcar 0 (datos_guardados t c) ++ [])
  = Some (datos_guardados t c, []).
Proof.
  intros Hc; rewrite volcar_datos, <- !app_assoc.
  replace (List.length c + 8 + f)%nat with (S (S (S (List.length c + 5 + f)))) by lia.
  rewrite leer_valor_objeto by (eexists; apply codificar_cabeza).
  rewrite (leer_miembros_paso _ _ _ _ (JStr (isoformat t)));
    [| apply clave_no_negativa_timestamp | apply saltar_cadena
     | apply leer_valor_cadena; apply isoformat_no_negativo].
  paso_blancos; rewrite saltar_salto, saltar_cadena.
  rewrite (leer_miembros_paso _ _ _ _ (conversacion_json c));
    [| apply clave_no_negativa_conversacion | apply saltar_conversacion
     | apply leer_conversacion; exact Hc].
  rewrite saltar_salto; paso_blancos; reflexivity.
Qed.

Lemma unir_longitud (s : pystr) (x : pystr) (xs : list pystr) :
  (List.length (unir (44%Z :: s) (x :: xs)) >= List.length xs)%nat.
Proof.
  cbn [unir]; rewrite length_app.
  enough (List.length (flat_map (fun y => (44%Z :: s) ++ y) xs) >= List.length xs)%nat
    by lia.
  induction xs as [|y ys IH]; simpl; [lia|].
  simpl in IH; rewrite !length_app; lia.
Qed.

Lemma volcar_conversacion_longitud (n : nat) (c : conversacion) :
  (List.length (volcar n (conversacion_json c)) >= List.length c)%nat.
Proof.
  destruct c as [|t ts]; [simpl; lia|].
  rewrite volcar_conversacion, !length_app.
  pose proof (unir_longitud (salto (S n)) (volcar (S n) (turno_json t))
                (map (volcar (S n)) (map turno_json ts))) as H.
  rewrite !length_map in H; cbn [map List.length] in *; lia.
Qed.

Lemma volcar_datos_longitud (t : fecha) (c : conversacion) :
  (List.length (volcar 0 (datos_guardados t c)) >= List.length c + 8)%nat.
Proof.
  rewrite volcar_datos, !length_app.
  pose proof (volcar_conversacion_longitud 1 c).
  assert (List.length (salto 0) = 1%nat) by reflexivity; cbn [List.length]; lia.
Qed.

Lemma validos_no_negativos (c : conversacion) :
  conversacion_valida c -> Forall turno_valido c.
Proof.
  intros H; eapply Forall_impl; [|exact H].
  intros t [Hr Ht]; split; (eapply Forall_impl; [|eassumption]); simpl; lia.
Qed.

Lemma json_loads_guardado (t : fecha) (c : conversacion) :
  conversacion_valida c ->
  json_loads (volcar 0 (datos_guardados t c)) = Some (datos_guardados t c).
Proof.
  intros Hc; apply validos_no_negativos in Hc.
  pose proof (volcar_datos_longitud t c) as Hl.
  pose proof (leer_documento t c (List.length (volcar 0 (datos_guardados t c)) - List.length c - 8) Hc) as Hd.
  rewrite app_nil_r in Hd.
  replace (List.length c + 8 + _)%nat with (List.length (volcar 0 (datos_guardados t c))) in Hd by lia.
  unfold json_loads.
  assert (Hcab : exists Y, volcar 0 (datos_guardados t c) = 123 :: Y)
    by (rewrite volcar_datos; eexists; reflexivity).
  destruct Hcab as [Y HY]; rewrite HY in *.
  cbv beta iota; rewrite saltar_no_blanco by reflexivity.
  rewrite Hd; reflexivity.
Qed.

(** ** The saved document holds no carriage return *)


Lemma lineas_universales_cons (a : Z) (s : pystr) :
  a <> 13 -> lineas_universales (a :: s) = a :: lineas_universales s.
Proof.
  intros H; destruct a as [|p|p]; [reflexivity| |reflexivity].
  repeat (destruct p as [p|p|]; try reflexivity). lia.
Qed.

Lemma lineas_universales_id (s : pystr) :
  Forall (fun x => x <> 13) s -> lineas_universales s = s.
Proof.
  induction 1 as [|a s Ha Hs IH]; [reflexivity|].
  rewrite lineas_universales_cons by exact Ha; congruence.
Qed.

Lemma sin_cr_app (a b : pystr) : sin_cr a -> sin_cr b -> sin_cr (a ++ b).
Proof. intros; apply Forall_app; auto. Qed.

Lemma sin_cr_lista (l : pystr) : forallb (fun x => negb (x =? 13)) l = true -> sin_cr l.
Proof.
  intros H; apply Forall_forall; intros x Hx.
  eapply forallb_forall in H; [|exact Hx]. zbool; lia.
Qed.

Lemma digito_hex_no_cr (d : Z) : 0 <= d -> digito_hex d <> 13.
Proof. unfold digito_hex; destruct (d <? 10) eqn:E; zbool; lia. Qed.

Lemma escapar_sin_cr (c : Z) : 0 <= c -> sin_cr (escapar_cp c).
Proof.
  intros Hc; unfold escapar_cp.
  repeat match goal with
         | |- context [if ?b then _ else _] => destruct b eqn:?
         end; zbool;
    try (apply sin_cr_lista; reflexivity).
  - repeat constructor; try lia; apply digito_hex_no_cr;
      [apply Z.div_pos | apply Z.mod_pos_bound]; lia.
  - repeat constructor; lia.
Qed.

Lemma codificar_sin_cr (s : pystr) : no_negativos s -> sin_cr (codificar_cadena s).
Proof.
  intros Hs; unfold codificar_cadena; constructor; [lia|].
  apply sin_cr_app; [|repeat constructor; lia].
  apply Forall_forall; intros x Hx; apply in_flat_map in Hx as [y [Hy Hx]].
  eapply Forall_forall in Hs; [|exact Hy].
  pose proof (escapar_sin_cr y Hs) as He; unfold sin_cr in He.
  rewrite Forall_forall in He; exact (He x Hx).
Qed.

Lemma salto_sin_cr (n : nat) : sin_cr (salto n).
Proof.
  unfold salto; constructor; [lia|].
  apply Forall_forall; intros x Hx; apply repeat_spec in Hx; lia.
Qed.

Lemma unir_sin_cr (s : pystr) (l : list pystr) :
  sin_cr s -> Forall sin_cr l -> sin_cr (unir s l).
Proof.
  intros Hs Hl; destruct Hl as [|x xs Hx Hxs]; [constructor|].
  cbn [unir]; apply sin_cr_app; [exact Hx|].
  induction Hxs as [|y ys Hy _ IH]; [constructor|].
  cbn [flat_map]; rewrite <- app_assoc; repeat apply sin_cr_app; auto.
Qed.

Lemma volcar_turno_sin_cr (n : nat) (t : turno) :
  turno_valido t -> sin_cr (volcar n (turno_json t)).
Proof.
  intros [Hr Ht]; rewrite volcar_turno.
  repeat apply sin_cr_app;
    first [ apply salto_sin_cr | apply codificar_sin_cr; assumption
          | apply codificar_sin_cr; first [apply clave_no_negativa_rol | apply clave_no_negativa_texto]
          | repeat constructor; lia ].
Qed.

Lemma volcar_conversacion_sin_cr (n : nat) (c : conversacion) :
  Forall turno_valido c -> sin_cr (volcar n (conversacion_json c)).
Proof.
  intros Hc; destruct c as [|t ts]; [repeat constructor; lia|].
  rewrite volcar_conversacion.
  apply sin_cr_app; [repeat constructor; lia|].
  apply sin_cr_app; [apply salto_sin_cr|].
  apply sin_cr_app; [|apply sin_cr_app; [apply salto_sin_cr | repeat constructor; lia]].
  apply unir_sin_cr; [constructor; [lia | apply salto_sin_cr]|].
  rewrite map_map; apply Forall_map; eapply Forall_impl; [|exact Hc].
  intros; apply volcar_turno_sin_cr; assumption.
Qed.

Lemma volcar_datos_sin_cr (t : fecha) (c : conversacion) :
  Forall turno_valido c -> sin_cr (volcar 0 (datos_guardados t c)).
Proof.
  intros Hc; rewrite volcar_datos.
  repeat apply sin_cr_app;
    first [ apply salto_sin_cr | apply volcar_conversacion_sin_cr; exact Hc
          | apply codificar_sin_cr; apply isoformat_no_negativo
          | apply codificar_sin_cr; first [apply clave_no_negativa_timestamp | apply clave_no_negativa_conversacion]
          | repeat constructor; lia ].
Qed.

(** ** Saving and loading a conversation *)


Lemma escribir_mismo (fs : almacen) (p : pystr) (b : list Z) : escribir fs p b p = Some b.
Proof. unfold escribir; destruct (list_eq_dec Z.eq_dec p p); congruence. Qed.

Lemma guardar_escribe (lg : EntrevistaLogger) (fs fs' : almacen) (t : fecha) (c : conversacion) (p : pystr) :
  guardar_conversacion lg fs t c = Ok (fs', p) ->
  exists b, contenido_guardado t c = Some b /\ fs' = escribir fs (archivo_salida lg) b
            /\ p = archivo_salida lg.
Proof.
  unfold guardar_conversacion, contenido_guardado.
  destruct (utf8_encode _) as [b|]; intros H; inversion H; subst; eauto.
Qed.

Lemma cargar_contenido (lg : EntrevistaLogger) (fs : almacen) (t : fecha) (c : conversacion) (b : list Z) :
  conversacion_valida c ->
  contenido_guardado t c = Some b ->
  fs (archivo_salida lg) = Some b ->
  cargar_conversacion lg fs None = Ok (conversacion_json c).
Proof.
  intros Hc Hb Hf; unfold cargar_conversacion; rewrite Hf.
  unfold contenido_guardado in Hb.
  rewrite (utf8_encode_decode _ _ Hb).
  pose proof (validos_no_negativos c Hc) as Hn.
  rewrite lineas_universales_id by (apply volcar_datos_sin_cr; exact Hn).
  rewrite json_loads_guardado by exact Hc.
  reflexivity.
Qed.

(** C10 (persist, then load): for a conversation whose texts are Python
    strings, once [guardar_conversacion] has succeeded,
    [cargar_conversacion] on the resulting files, without a path or with
    the returned path, gives back exactly the conversation that was
    written: the JSON list of its [{"rol": ..., "texto": ...}] objects. *)
Theorem guardar_luego_cargar (lg : EntrevistaLogger) (fs fs' : almacen) (t : fecha)
    (c : conversacion) (p : pystr) :
  conversacion_valida c ->
  guardar_conversacion lg fs t c = Ok (fs', p) ->
  cargar_conversacion lg fs' None = Ok (conversacion_json c)
  /\ cargar_conversacion lg fs' (Some p) = Ok (conversacion_json c).
Proof.
  intros Hc H; apply guardar_escribe in H as [b [Hb [-> ->]]].
  assert (E : cargar_conversacion lg (escribir fs (archivo_salida lg) b) None
              = Ok (conversacion_json c))
    by (eapply cargar_contenido; [exact Hc | exact Hb | apply escribir_mismo]).
  split; [exact E|]; exact E.
Qed.

(** Fixed-width decimal digits and [isoformat]. *)

Lemma digitos_fijos_cero (w : nat) : digitos_fijos w 0 = repeat 48 w.
Proof.
  induction w as [|w IH]; [reflexivity|].
  cbn [digitos_fijos]; change (0 / 10) with 0; change (48 + 0 mod 10) with 48.
  rewrite IH; replace (S w) with (w + 1)%nat by lia; rewrite repeat_app; reflexivity.
Qed.

Lemma longitud_digitos_fijos (w : nat) (n : Z) : List.length (digitos_fijos w n) = w.
Proof.
  revert n; induction w as [|w IH]; intros n; [reflexivity|].
  cbn [digitos_fijos]; rewrite length_app, IH; cbn; lia.
Qed.

Lemma digitos_nat_fijos (w : nat) :
  forall fuel n, (1 <= w)%nat -> 0 <= n < 10 ^ Z.of_nat w -> n < 10 ^ Z.of_nat fuel ->
  (List.length (digitos_nat fuel n) <= w)%nat
  /\ repeat 48 (w - List.length (digitos_nat fuel n)) ++ digitos_nat fuel n = digitos_fijos w n.
Proof.
  induction w as [|w IH]; intros fuel n Hw Hn Hf; [lia|].
  destruct fuel as [|f].
  { cbn in Hf; assert (n = 0) by lia; subst n; cbn [digitos_nat List.length].
    rewrite digitos_fijos_cero, app_nil_r, Nat.sub_0_r; split; [lia | reflexivity]. }
  cbn [digitos_nat].
  destruct (Z.ltb_spec n 10) as [L|L].
  - rewrite Z.mod_small by lia; cbn [app List.length].
    cbn [digitos_fijos]; rewrite Z.div_small, digitos_fijos_cero, Z.mod_small by lia.
    split; [lia|]. replace (S w - 1)%nat with w by lia. reflexivity.
  - assert (Hw' : (1 <= w)%nat).
    { destruct w; [|lia]. cbn in Hn; lia. }
    rewrite Nat2Z.inj_succ, Z.pow_succ_r in Hn, Hf by lia.
    assert (Q1 : 0 <= n / 10 < 10 ^ Z.of_nat w)
      by (split; [apply Z.div_pos; lia | apply Z.div_lt_upper_bound; lia]).
    assert (Q2 : n / 10 < 10 ^ Z.of_nat f) by (apply Z.div_lt_upper_bound; lia).
    destruct (IH f (n / 10) Hw' Q1 Q2) as [Lw E].
    rewrite length_app; cbn [List.length].
    split; [lia|].
    replace (S w - (List.length (digitos_nat f (n / 10)) + 1))%nat
      with (w - List.length (digitos_nat f (n / 10)))%nat by lia.
    cbn [digitos_fijos]; rewrite app_assoc, E; reflexivity.
Qed.

Lemma rellenar_fijos (w : nat) (n : Z) :
  (1 <= w)%nat -> 0 <= n < 10 ^ Z.of_nat w -> rellenar w n = digitos_fijos w n.
Proof.
  intros Hw Hn; unfold rellenar.
  apply (digitos_nat_fijos w); [exact Hw | exact Hn|].
  destruct (Z.eq_dec n 0) as [->|N]; [cbn; lia|].
  pose proof (Z.log2_spec n ltac:(lia)) as [_ H].
  rewrite Nat2Z.inj_add, Z2Nat.id by apply Z.log2_nonneg.
  cbn [Z.of_nat Pos.of_succ_nat].
  rewrite <- Z.add_1_r in H.
  eapply Z.lt_le_trans; [exact H|].
  apply Z.pow_le_mono_l; lia.
Qed.

Lemma digitos_fijos_inj (w : nat) :
  forall a b, 0 <= a < 10 ^ Z.of_nat w -> 0 <= b < 10 ^ Z.of_nat w ->
  digitos_fijos w a = digitos_fijos w b -> a = b.
Proof.
  induction w as [|w IH]; intros a b Ha Hb E; [cbn in Ha, Hb; lia|].
  rewrite Nat2Z.inj_succ, Z.pow_succ_r in Ha, Hb by lia.
  cbn [digitos_fijos] in E; apply app_inj_tail in E as [E1 E2].
  assert (Qa : 0 <= a / 10 < 10 ^ Z.of_nat w)
    by (split; [apply Z.div_pos; lia | apply Z.div_lt_upper_bound; lia]).
  assert (Qb : 0 <= b / 10 < 10 ^ Z.of_nat w)
    by (split; [apply Z.div_pos; lia | apply Z.div_lt_upper_bound; lia]).
  pose proof (IH _ _ Qa Qb E1).
  pose proof (Z.div_mod a 10 ltac:(lia)); pose proof (Z.div_mod b 10 ltac:(lia)).
  inversion E2; lia.
Qed.

Lemma app_misma_longitud {A : Type} (a a' b b' : list A) :
  List.length a = List.length a' -> a ++ b = a' ++ b' -> a = a' /\ b = b'.
Proof.
  revert a'; induction a as [|x a IH]; intros a' L E; destruct a' as [|y a']; try discriminate;
    [split; [reflexivity | exact E]|].
  inversion E as [[Hx Hr]]; subst y. destruct (IH a' ltac:(cbn in L; lia) Hr) as [-> ->].
  split; reflexivity.
Qed.

Lemma rellenar_inj (w : nat) (a b : Z) (r r' : pystr) :
  (1 <= w)%nat -> 0 <= a < 10 ^ Z.of_nat w -> 0 <= b < 10 ^ Z.of_nat w ->
  rellenar w a ++ r = rellenar w b ++ r' -> a = b /\ r = r'.
Proof.
  intros Hw Ha Hb E; rewrite !rellenar_fijos in E by assumption.
  apply app_misma_longitud in E as [E1 E2]; [|rewrite !longitud_digitos_fijos; reflexivity].
  split; [exact (digitos_fijos_inj w a b Ha Hb E1) | exact E2].
Qed.

(** Two readings that [datetime] allows, with four-digit years, have the
    same [isoformat()] only when they are the same reading. *)
Lemma isoformat_inyectiva (t1 t2 : fecha) :
  fecha_valida t1 = true -> fecha_valida t2 = true -> isoformat t1 = isoformat t2 -> t1 = t2.
Proof.
  intros V1 V2 E.
  pose proof V1 as V1'; pose proof V2 as V2'.
  unfold fecha_valida in V1', V2'; repeat rewrite andb_true_iff in V1', V2'.
  rewrite ?Z.leb_le in V1', V2'.
  destruct t1 as [a1 m1 d1 h1 n1 s1 u1], t2 as [a2 m2 d2 h2 n2 s2 u2]; cbn in V1', V2'.
  unfold isoformat in E; cbn [anio mes dia hora minuto segundo microsegundo] in E.
  apply rellenar_inj in E as [-> E1]; [|lia|cbn; lia|cbn; lia]. cbn [app] in E1. inversion E1 as [F1].
  apply rellenar_inj in F1 as [-> E2]; [|lia|cbn; lia|cbn; lia]. cbn [app] in E2. inversion E2 as [F2].
  apply rellenar_inj in F2 as [-> E3]; [|lia|cbn; lia|cbn; lia]. cbn [app] in E3. inversion E3 as [F3].
  apply rellenar_inj in F3 as [-> E4]; [|lia|cbn; lia|cbn; lia]. cbn [app] in E4. inversion E4 as [F4].
  apply rellenar_inj in F4 as [-> E5]; [|lia|cbn; lia|cbn; lia]. cbn [app] in E5. inversion E5 as [F5].
  apply rellenar_inj in F5 as [-> E6]; [|lia|cbn; lia|cbn; lia].
  destruct (Z.eqb_spec u1 0), (Z.eqb_spec u2 0); try discriminate.
  - f_equal; lia.
  - inversion E6 as [F6].
    rewrite <- (app_nil_r (rellenar 6 u1)), <- (app_nil_r (rellenar 6 u2)) in F6.
    apply rellenar_inj in F6 as [-> _]; [reflexivity|lia|cbn; lia|cbn; lia].
Qed.

Lemma datos_inyectivos (t1 t2 : fecha) (c : conversacion) :
  conversacion_valida c ->
  volcar 0 (datos_guardados t1 c) = volcar 0 (datos_guardados t2 c) ->
  isoformat t1 = isoformat t2.
Proof.
  intros Hc E.
  pose proof (json_loads_guardado t1 c Hc) as H1.
  pose proof (json_loads_guardado t2 c Hc) as H2.
  rewrite E, H2 in H1; inversion H1; reflexivity.
Qed.

(** C1 (two successive saves), as the code behaves: each call of
    [guardar_conversacion] overwrites the output file with a document
    holding the time of the call ([datetime.now().isoformat()]) next to
    the conversation.  After two successful calls with the same
    conversation the file holds the document of the second call, whatever
    the first wrote; no other file changes; and the two stored contents
    are equal exactly when both calls read the same [isoformat] time,
    which for two readings [datetime] allows, with four-digit years,
    means the same reading: calls at different readings store different
    bytes.
    [guardar_dos_veces_contraejemplo] shows two calls one microsecond
    apart storing different bytes. *)
Theorem guardar_dos_veces (lg : EntrevistaLogger) (fs fs1 fs2 : almacen) (t1 t2 : fecha)
    (c : conversacion) (p1 p2 : pystr) :
  conversacion_valida c ->
  guardar_conversacion lg fs t1 c = Ok (fs1, p1) ->
  guardar_conversacion lg fs1 t2 c = Ok (fs2, p2) ->
  fs1 (archivo_salida lg) = contenido_guardado t1 c
  /\ fs2 (archivo_salida lg) = contenido_guardado t2 c
  /\ (forall q, q <> archivo_salida lg -> fs2 q = fs q)
  /\ (fs2 (archivo_salida lg) = fs1 (archivo_salida lg) <-> isoformat t1 = isoformat t2)
  /\ (fecha_valida t1 = true -> fecha_valida t2 = true ->
      fs2 (archivo_salida lg) = fs1 (archivo_salida lg) <-> t1 = t2).
Proof.
  intros Hc G1 G2.
  enough (H : fs1 (archivo_salida lg) = contenido_guardado t1 c
              /\ fs2 (archivo_salida lg) = contenido_guardado t2 c
              /\ (forall q, q <> archivo_salida lg -> fs2 q = fs q)
              /\ (fs2 (archivo_salida lg) = fs1 (archivo_salida lg) <-> isoformat t1 = isoformat t2)).
  { destruct H as [H1 [H2 [H3 H4]]]; split; [exact H1|]; split; [exact H2|]; split; [exact H3|].
    split; [exact H4|]. intros V1 V2; rewrite H4; split.
    - apply isoformat_inyectiva; assumption.
    - intros ->; reflexivity. }
  apply guardar_escribe in G1 as [b1 [B1 [-> ->]]].
  apply guardar_escribe in G2 as [b2 [B2 [-> ->]]].
  rewrite !escribir_mismo, B1, B2.
  split; [reflexivity|]; split; [reflexivity|]; split.
  - intros q Hq; unfold escribir.
    destruct (list_eq_dec Z.eq_dec q (archivo_salida lg)); [contradiction|].
    destruct (list_eq_dec Z.eq_dec q (archivo_salida lg)); [contradiction|reflexivity].
  - unfold contenido_guardado in B1, B2; split.
    + intros E; inversion E; subst b2.
      apply utf8_encode_decode in B1, B2; rewrite B1 in B2.
      assert (E' : volcar 0 (datos_guardados t1 c) = volcar 0 (datos_guardados t2 c))
        by congruence.
      exact (datos_inyectivos t1 t2 c Hc E').
    + intros E; unfold datos_guardados in B1, B2; rewrite E in B1; congruence.
Qed.

Lemma guardar_dos_veces_contraejemplo :
  let fs1 := archivos_tras logger_ejemplo almacen_vacio fecha_1 conversacion_ejemplo in
  let fs2 := archivos_tras logger_ejemplo fs1 fecha_2 conversacion_ejemplo in
  guardar_conversacion logger_ejemplo almacen_vacio fecha_1 conversacion_ejemplo
    = Ok (fs1, archivo_salida logger_ejemplo)
  /\ guardar_conversacion logger_ejemplo fs1 fecha_2 conversacion_ejemplo
    = Ok (fs2, archivo_salida logger_ejemplo)
  /\ fs2 (archivo_salida logger_ejemplo) <> fs1 (archivo_salida logger_ejemplo).
Proof.
  split; [reflexivity|]; split; [reflexivity|].
  vm_compute; discriminate.
Qed.

(** C8: the message list of the request is the system prompt, then one
    message per turn in order (an interviewer turn as ["assistant"], a
    candidate turn as ["user"], with the turn's text), then the closing
    ["user"] instruction asking for the next question only; it has two
    messages more than the conversation has turns, and the result of
    [OpenRouterConversacion.generar_pregunta] depends on the server only
    through its answer to that list. *)
(** ** [generar_pregunta] *)


Theorem mensajes_enviados (prompt_base : pystr) (c : conversacion) :
  List.length (mensajes prompt_base c) = (List.length c + 2)%nat
  /\ nth_error (mensajes prompt_base c) 0 = Some (mk_mensaje rol_system prompt_base)
  /\ (forall i t, nth_error c i = Some t ->
        (rol t = rol_entrevistador ->
         nth_error (mensajes prompt_base c) (S i) = Some (mk_mensaje rol_assistant (texto t)))
        /\ (rol t = rol_candidato ->
         nth_error (mensajes prompt_base c) (S i) = Some (mk_mensaje rol_user (texto t))))
  /\ nth_error (mensajes prompt_base c) (S (List.length c))
     = Some (mk_mensaje rol_user instruccion_final)
  /\ (forall enviar,
        OpenRouterConversacion_generar_pregunta prompt_base c enviar
        = OpenRouterConversacion_generar_pregunta prompt_base c
            (fun _ => enviar (mensajes prompt_base c))).
Proof.
  unfold mensajes; split; [|split; [reflexivity|split; [|split]]].
  - rewrite !length_app, length_map; simpl; lia.
  - intros i t Hi; cbn [app nth_error].
    rewrite nth_error_app1 by (rewrite length_map; apply nth_error_Some; congruence).
    rewrite nth_error_map, Hi; cbn [option_map]; unfold rol_api.
    split; intros Hr; rewrite Hr; [reflexivity|].
    destruct (list_eq_dec Z.eq_dec rol_candidato rol_entrevistador) as [E|];
      [vm_compute in E; discriminate | reflexivity].
  - cbn [app nth_error]; rewrite nth_error_app2 by (rewrite length_map; lia).
    rewrite length_map, Nat.sub_diag; reflexivity.
  - intros enviar; reflexivity.
Qed.

Lemma fallos_no_vacios :
  pregunta_fallo_transporte <> [] /\ pregunta_fallo_forma <> [] /\ pregunta_fallo_cliente <> [].
Proof. repeat split; discriminate. Qed.

(** C2, as the code behaves: [generar_pregunta] catches [Exception],
    not [KeyboardInterrupt], so it does not always return: with the API
    key set, a CTRL+C during [requests.post] or while the body of an [ok]
    response is read escapes the call.  When it returns a [str] after
    catching an exception, that is one of three literal fallbacks: one
    for a missing API key; the transport one for a failed request, a
    response that is not [ok], a body that is not JSON or an exception
    while reading the fields; the response-shape one when a field is
    missing.  When it caught none, it is the cleaned [content] of the
    response, which can be empty ([generar_pregunta_vacia_contraejemplo]).
    The fallbacks are non-empty. *)
Theorem generar_pregunta_resultado (api_key : option pystr) (c : conversacion)
    (prompt_base : pystr) (enviar : list mensaje -> respuesta_http) :
  ((exists k, api_key = Some k /\ k <> []) ->
   enviar (mensajes prompt_base c) = Interrupcion_post
   \/ enviar (mensajes prompt_base c) = RespuestaHttp true CuerpoInterrumpido ->
   generar_pregunta api_key c prompt_base enviar = Interrumpido)
  /\ (forall s, generar_pregunta api_key c prompt_base enviar = Devuelve s ->
        generacion_fallida api_key c prompt_base enviar = true ->
        ((api_key = None \/ api_key = Some []) /\ s = pregunta_fallo_cliente)
        \/ ((exists k, api_key = Some k /\ k <> []) /\
            (s = pregunta_fallo_transporte
             <-> enviar (mensajes prompt_base c) = FalloTransporte
                 \/ (exists b, enviar (mensajes prompt_base c) = RespuestaHttp false b)
                 \/ enviar (mensajes prompt_base c) = RespuestaHttp true CuerpoInvalido
                 \/ (exists j, enviar (mensajes prompt_base c) = RespuestaHttp true (CuerpoJson j)
                               /\ extraer j = Excepcion))
            /\ (s = pregunta_fallo_transporte \/ s = pregunta_fallo_forma)))
  /\ (forall s, generar_pregunta api_key c prompt_base enviar = Devuelve s ->
        generacion_fallida api_key c prompt_base enviar = false ->
        exists j x, enviar (mensajes prompt_base c) = RespuestaHttp true (CuerpoJson j)
                    /\ extraer j = Contenido x /\ s = limpiar x)
  /\ pregunta_fallo_transporte <> [] /\ pregunta_fallo_forma <> []
  /\ pregunta_fallo_cliente <> [].
Proof.
  assert (Dif : pregunta_fallo_forma <> pregunta_fallo_transporte) by discriminate.
  unfold generar_pregunta, generacion_fallida, OpenRouterConversacion_generar_pregunta.
  split; [|split; [|split; [|exact fallos_no_vacios]]].
  - intros [k [-> Hk]] [H|H]; (destruct k as [|z k]; [contradiction|]); rewrite H; reflexivity.
  - intros s; destruct api_key as [[|z k]|].
    + intros E _; inversion E; subst; left; auto.
    + assert (K : exists k', Some (z :: k) = Some k' /\ k' <> [])
        by (exists (z :: k); split; [reflexivity|discriminate]).
      destruct (enviar _) as [| |[|] [j| |]] eqn:En; try (destruct (extraer j) eqn:Ex);
        intros E F; try discriminate; inversion E; subst; right; split; auto;
        split; try (split; [intros; eauto 6 | intros; reflexivity]); auto.
      * split; [intros H; exfalso; exact (Dif H)|].
        intros [H|[[b H]|[H|[j' [H X]]]]]; try discriminate.
        inversion H; subst; congruence.
    + intros E _; inversion E; subst; left; auto.
  - intros s; destruct api_key as [[|z k]|]; try (intros _ F; discriminate).
    destruct (enviar _) as [| |[|] [j| |]] eqn:En; try (destruct (extraer j) eqn:Ex);
      intros E F; try discriminate.
    inversion E; subst; eauto.
Qed.

Lemma generar_pregunta_vacia_contraejemplo :
  generar_pregunta clave_ejemplo [turno_entrevistador pregunta_inicial] prompt_ejemplo
    (fun _ => RespuestaHttp true (CuerpoJson (respuesta_con []))) = Devuelve [].
Proof. vm_compute; reflexivity. Qed.

(** ** The session controller *)

Lemma ejecutar_app lg pb ak (s : estado) (l1 l2 : list evento) :
  ejecutar lg pb ak s (l1 ++ l2) =
  match ejecutar lg pb ak s l1 with Some s' => ejecutar lg pb ak s' l2 | None => None end.
Proof.
  revert s; induction l1 as [|e l1 IH]; intros s; [reflexivity|].
  simpl; destruct (paso lg pb ak s e); [apply IH | reflexivity].
Qed.

Lemma persistir_casos lg (c : conversacion) (t : fecha) (fs : almacen) (p : punto) :
  (exists b, contenido_guardado t c = Some b
             /\ persistir lg c t fs p = mk_estado p (escribir fs (archivo_salida lg) b))
  \/ (contenido_guardado t c = None /\ persistir lg c t fs p = mk_estado (Abortado c) fs).
Proof.
  unfold persistir, guardar_conversacion, contenido_guardado.
  destruct (utf8_encode _); [left; eauto | right; auto].
Qed.

Lemma cerrado_paso lg pb ak (s s' : estado) (e : evento) :
  cerrado (pc s) = true -> paso lg pb ak s e = Some s' -> cerrado (pc s') = true.
Proof.
  destruct s as [[] fs]; try discriminate; intros _; destruct e; simpl; try discriminate;
    intros H; inversion H; subst; try reflexivity.
  destruct (persistir_casos lg c t fs (Terminado c)) as [[b [_ ->]]|[_ ->]]; reflexivity.
Qed.

Lemma cerrado_ejecutar lg pb ak (l : list evento) :
  forall s s', cerrado (pc s) = true -> ejecutar lg pb ak s l = Some s' -> cerrado (pc s') = true.
Proof.
  induction l as [|e l IH]; intros s s' Hs H; simpl in H; [congruence|].
  destruct (paso lg pb ak s e) as [s1|] eqn:P; [|discriminate].
  exact (IH s1 s' (cerrado_paso lg pb ak s s1 e Hs P) H).
Qed.

Lemma paso_en_espera lg pb ak c fs (s s1 : estado) (e : evento) :
  en_espera c fs s -> sin_interrupcion_ni_respuesta e -> paso lg pb ak s e = Some s1 ->
  en_espera c fs s1 /\ (forall t, e <> EGuarda t).
Proof.
  intros [Hf Hp] [Hi [Hx Hc]] P; destruct s as [p fs0]; simpl in Hf, Hp; subst fs0.
  destruct Hp as [->|[->|[r [-> Hr]]]]; destruct e;
    cbn [paso pc archivos interrumpir conversacion_de] in P; try discriminate;
    try contradiction.
  - inversion P; subst; split; [|intros; discriminate].
    split; [reflexivity|]; right; left; reflexivity.
  - inversion P; subst; split; [|intros; discriminate].
    split; [reflexivity|]; right; right; exists r; split; [reflexivity|]; apply Hc; reflexivity.
  - rewrite Hr in P; inversion P; subst; split; [|intros; discriminate].
    split; [reflexivity|]; left; reflexivity.
Qed.

Lemma ejecutar_en_espera lg pb ak c fs (l : list evento) :
  forall s s', en_espera c fs s -> Forall sin_interrupcion_ni_respuesta l ->
  ejecutar lg pb ak s l = Some s' -> en_espera c fs s' /\ (forall t, ~ In (EGuarda t) l).
Proof.
  induction l as [|e l IH]; intros s s' Hs Hl H; simpl in H.
  - inversion H; subst; split; [exact Hs | intros t []].
  - inversion Hl as [|? ? He Hl']; subst.
    destruct (paso lg pb ak s e) as [s1|] eqn:P; [|discriminate].
    destruct (paso_en_espera lg pb ak c fs s s1 e Hs He P) as [Hs1 Ne].
    destruct (IH s1 s' Hs1 Hl' H) as [Hs' Nl].
    split; [exact Hs'|]. intros t [E|I]; [exact (Ne t E) | exact (Nl t I)].
Qed.

(** C3: from the prompt for ENTER, any number of rounds whose
    transcription is empty or whitespace-only come back to the prompt with
    the same conversation and files; and a run from there without CTRL+C,
    without exception and with only such transcriptions never calls
    [guardar_conversacion], leaves files and conversation unchanged, and
    stays at the prompt, the recording or the check of a blank answer. *)
Theorem respuestas_vacias (lg : EntrevistaLogger) (prompt_base : pystr) (api_key : option pystr)
    (c : conversacion) (fs : almacen) :
  (forall rs, Forall (fun r => vacia r = true) rs ->
     ejecutar lg prompt_base api_key (mk_estado (EsperaEnter c) fs)
       (flat_map (fun r => [EEnter; ECaptura r; ETau]) rs)
     = Some (mk_estado (EsperaEnter c) fs))
  /\ (forall l s', Forall sin_interrupcion_ni_respuesta l ->
        ejecutar lg prompt_base api_key (mk_estado (EsperaEnter c) fs) l = Some s' ->
        archivos s' = fs
        /\ (forall t, ~ In (EGuarda t) l)
        /\ conversacion_de (pc s') = c
        /\ (pc s' = EsperaEnter c \/ pc s' = Grabar c
            \/ exists r, pc s' = Revisar c r /\ vacia r = true)).
Proof.
  split.
  - induction 1 as [|r rs Hr _ IH]; [reflexivity|].
    cbn [flat_map]; rewrite ejecutar_app.
    cbn [ejecutar paso pc archivos]; rewrite Hr; exact IH.
  - intros l s' Hl H.
    assert (H0 : en_espera c fs (mk_estado (EsperaEnter c) fs))
      by (split; [reflexivity | left; reflexivity]).
    destruct (ejecutar_en_espera lg prompt_base api_key c fs l _ s' H0 Hl H)
      as [[Hf Hp] Nl].
    split; [exact Hf|]; split; [exact Nl|]; split; [|exact Hp].
    destruct Hp as [->|[->|[r [-> _]]]]; reflexivity.
Qed.

Lemma cerrado_no_genera lg pb ak (s s' : estado) (l : list evento) (c : conversacion) :
  cerrado (pc s) = true -> ejecutar lg pb ak s l = Some s' -> pc s' <> Generar c.
Proof.
  intros Hs H E; pose proof (cerrado_ejecutar lg pb ak l s s' Hs H) as C.
  rewrite E in C; discriminate.
Qed.

(** C4: after a non-blank transcription [r], the append and the call of
    [guardar_conversacion] lead to the generation step with exactly one
    candidate turn [r] appended and the file holding the whole
    conversation; and every run that reaches the generation step before
    any call of [generar_pregunta] is exactly that: one append of [r], then
    one successful save of the whole extended conversation. *)
Theorem respuesta_guardada_antes_de_generar (lg : EntrevistaLogger) (prompt_base : pystr)
    (api_key : option pystr) (c : conversacion) (r : pystr) (fs : almacen) :
  vacia r = false ->
  (forall t b, contenido_guardado t (c ++ [turno_candidato r]) = Some b ->
     ejecutar lg prompt_base api_key (mk_estado (Revisar c r) fs) [ETau; EGuarda t]
     = Some (mk_estado (Generar (c ++ [turno_candidato r])) (escribir fs (archivo_salida lg) b)))
  /\ (forall l s' c',
        (forall resp, ~ In (EGenera resp) l) ->
        ejecutar lg prompt_base api_key (mk_estado (Revisar c r) fs) l = Some s' ->
        pc s' = Generar c' ->
        c' = c ++ [turno_candidato r]
        /\ exists t b, l = [ETau; EGuarda t]
                       /\ contenido_guardado t c' = Some b
                       /\ archivos s' = escribir fs (archivo_salida lg) b).
Proof.
  intros Hr; split.
  - intros t b Hb; cbn [ejecutar paso pc archivos]; rewrite Hr; cbn [paso pc archivos].
    destruct (persistir_casos lg (c ++ [turno_candidato r]) t fs
                (Generar (c ++ [turno_candidato r]))) as [[b' [Hb' ->]]|[Hn _]];
      [|congruence].
    rewrite Hb in Hb'; inversion Hb'; reflexivity.
  - intros l s' c' Ng H E.
    destruct l as [|e1 l1]; [inversion H; subst; discriminate|].
    destruct e1; cbn [ejecutar paso pc archivos interrumpir conversacion_de] in H;
      try discriminate.
    2: { exfalso; refine (cerrado_no_genera _ _ _ _ _ _ _ _ H E); reflexivity. }
    rewrite Hr in H; cbn [ejecutar] in H.
    destruct l1 as [|e2 l2]; [inversion H; subst; discriminate|].
    destruct e2; cbn [ejecutar paso pc archivos interrumpir conversacion_de] in H;
      try discriminate.
    2: { exfalso; refine (cerrado_no_genera _ _ _ _ _ _ _ _ H E); reflexivity. }
    destruct (persistir_casos lg (c ++ [turno_candidato r]) t fs
                (Generar (c ++ [turno_candidato r]))) as [[b [Hb P]]|[_ P]];
      rewrite P in H.
    + destruct l2 as [|e3 l3].
      * inversion H; subst; simpl in E; inversion E; subst.
        split; [reflexivity|]; exists t, b; auto.
      * exfalso; destruct e3; cbn [ejecutar paso pc archivos interrumpir conversacion_de] in H;
          try discriminate.
        -- apply (Ng resp); right; right; left; reflexivity.
        -- refine (cerrado_no_genera _ _ _ _ _ _ _ _ H E); reflexivity.
    + exfalso; refine (cerrado_no_genera _ _ _ _ _ _ _ _ H E); reflexivity.
Qed.




Lemma alterna_app (b : bool) (c : conversacion) (t : turno) :
  alterna b (c ++ [t]) =
  alterna b c && str_eqb (rol t) (if Bool.eqb b (Nat.even (List.length c))
                                  then rol_entrevistador else rol_candidato).
Proof.
  revert b; induction c as [|t0 c IH]; intros b.
  - destruct b; simpl; rewrite andb_true_r; reflexivity.
  - cbn [app alterna List.length]; rewrite IH, Nat.even_succ, <- Nat.negb_even, andb_assoc.
    destruct b, (Nat.even (List.length c)); reflexivity.
Qed.

Lemma str_eqb_refl (s : pystr) : str_eqb s s = true.
Proof. unfold str_eqb; destruct (list_eq_dec Z.eq_dec s s); congruence. Qed.

Lemma inv_alterna_anadir (c : conversacion) (t : turno) (b : bool) :
  alterna true c = true -> Nat.even (List.length c) = b ->
  rol t = (if b then rol_entrevistador else rol_candidato) ->
  alterna true (c ++ [t]) = true /\ c ++ [t] <> []
  /\ Nat.even (List.length (c ++ [t])) = negb b.
Proof.
  intros Ha He Hr; rewrite alterna_app, Ha, He, Hr; split; [|split].
  - destruct b; apply str_eqb_refl.
  - destruct c; discriminate.
  - rewrite length_app, Nat.add_1_r, Nat.even_succ, <- Nat.negb_even, He; reflexivity.
Qed.

Lemma paso_inv_alterna lg pb ak (s s1 : estado) (e : evento) :
  inv_alterna (pc s) -> paso lg pb ak s e = Some s1 -> inv_alterna (pc s1).
Proof.
  destruct s as [p fs]; intros [Ha [Hn Hp]] P; simpl in Ha, Hn, Hp.
  destruct p; destruct e; cbn [paso pc archivos interrumpir conversacion_de] in P;
    try discriminate;
    repeat match type of P with
           | context [if ?b then _ else _] => destruct b
           | context [match generar_pregunta ?a ?c ?q ?f with _ => _ end] =>
               destruct (generar_pregunta a c q f)
           | context [persistir ?lg ?c ?t ?fs ?p] =>
               destruct (persistir_casos lg c t fs p) as [[? [_ E]]|[_ E]]; rewrite E in P;
               clear E
           end;
    inversion P; subst; clear P;
    unfold inv_alterna; cbn [pc conversacion_de] in *; auto;
    match goal with
    | |- context [alterna true (?c ++ [?t])] =>
        destruct (inv_alterna_anadir c t _ Ha Hp eq_refl) as (A & B & C)
    end;
    repeat split; auto; rewrite C; reflexivity.
Qed.

Lemma patron_de_alterna (c : conversacion) :
  c <> [] -> alterna true c = true -> patron_sesion c = true.
Proof.
  destruct c as [|t r]; intros Hn Ha; [contradiction|].
  unfold patron_sesion; rewrite Ha; reflexivity.
Qed.

(** C6: in every state reachable from the start of the session, the
    conversation is non-empty, starts with an interviewer turn and
    strictly alternates interviewer and candidate turns; so it has the
    shape [patron_sesion] the specification allows. *)
Theorem conversacion_alterna (lg : EntrevistaLogger) (prompt_base : pystr)
    (api_key : option pystr) (fs : almacen) (l : list evento) (s' : estado) :
  ejecutar lg prompt_base api_key (inicio fs) l = Some s' ->
  patron_sesion (conversacion_de (pc s')) = true
  /\ alterna true (conversacion_de (pc s')) = true
  /\ (exists t r, conversacion_de (pc s') = t :: r /\ rol t = rol_entrevistador).
Proof.
  assert (Gen : forall l s s', inv_alterna (pc s) ->
            ejecutar lg prompt_base api_key s l = Some s' -> inv_alterna (pc s')).
  { induction l0 as [|e l0 IH]; intros s s0 Hs H; simpl in H.
    - inversion H; subst; exact Hs.
    - destruct (paso lg prompt_base api_key s e) as [s1|] eqn:P; [|discriminate].
      exact (IH s1 s0 (paso_inv_alterna lg prompt_base api_key s s1 e Hs P) H). }
  intros H.
  assert (H0 : inv_alterna (pc (inicio fs))) by (vm_compute; repeat split; discriminate).
  destruct (Gen l _ s' H0 H) as [Ha [Hn _]].
  split; [exact (patron_de_alterna _ Hn Ha)|].
  split; [exact Ha|].
  destruct (conversacion_de (pc s')) as [|t r] eqn:E; [contradiction|].
  exists t, r; split; [reflexivity|].
  simpl in Ha; apply andb_true_iff in Ha as [Ht _].
  unfold str_eqb in Ht; destruct (list_eq_dec Z.eq_dec (rol t) rol_entrevistador); congruence.
Qed.

Lemma fallida_devuelve (api_key : option pystr) (c : conversacion) (prompt_base : pystr)
    (enviar : list mensaje -> respuesta_http) :
  generacion_fallida api_key c prompt_base enviar = true ->
  exists g, generar_pregunta api_key c prompt_base enviar = Devuelve g
            /\ (g = pregunta_fallo_transporte \/ g = pregunta_fallo_forma
                \/ g = pregunta_fallo_cliente).
Proof.
  unfold generacion_fallida, generar_pregunta, OpenRouterConversacion_generar_pregunta.
  destruct api_key as [[|z k]|]; [eauto 6| |eauto 6].
  destruct (enviar _) as [| |[|] [j| |]]; try (destruct (extraer j));
    intros H; try discriminate; eauto 6.
Qed.

Lemma marcador_fallos :
  marcador pregunta_fallo_transporte = false /\ marcador pregunta_fallo_forma = false
  /\ marcador pregunta_fallo_cliente = false.
Proof. vm_compute; auto. Qed.

(** C9: when [generar_pregunta] catches an exception and returns a
    fallback [g], [g] is one of the three fallbacks, non-empty and without
    a closing marker; the controller shows it and appends it as an
    interviewer turn, back at the prompt for ENTER; within that iteration
    no run without CTRL+C ends the session or touches the files. *)
Theorem fallo_de_generacion_no_termina (lg : EntrevistaLogger) (prompt_base : pystr)
    (api_key : option pystr) (c : conversacion) (fs : almacen) (resp : respuesta_http) :
  generacion_fallida api_key c prompt_base (fun _ => resp) = true ->
  exists g,
    generar_pregunta api_key c prompt_base (fun _ => resp) = Devuelve g
    /\ (g = pregunta_fallo_transporte \/ g = pregunta_fallo_forma \/ g = pregunta_fallo_cliente)
    /\ g <> [] /\ marcador g = false
    /\ ejecutar lg prompt_base api_key (mk_estado (Generar c) fs) [EGenera resp; ETau; ETau]
       = Some (mk_estado (EsperaEnter (c ++ [turno_entrevistador g])) fs)
    /\ (forall l s', (List.length l <= 2)%nat -> ~ In EInterrupcion l ->
          ejecutar lg prompt_base api_key (mk_estado (Generar c) fs) (EGenera resp :: l) = Some s' ->
          archivos s' = fs
          /\ (pc s' = RevisarCierre c g \/ pc s' = Presentar c g
              \/ pc s' = EsperaEnter (c ++ [turno_entrevistador g]))).
Proof.
  intros F; destruct (fallida_devuelve _ _ _ _ F) as [g [Hg Hin]].
  assert (Hm : marcador g = false)
    by (destruct marcador_fallos as (M1 & M2 & M3); destruct Hin as [-> | [-> | ->]]; assumption).
  assert (Hn : g <> [])
    by (destruct fallos_no_vacios as (N1 & N2 & N3); destruct Hin as [-> | [-> | ->]]; assumption).
  exists g; split; [exact Hg|]; split; [exact Hin|]; split; [exact Hn|]; split; [exact Hm|].
  split.
  - cbn [ejecutar paso pc archivos]; rewrite Hg; cbn [ejecutar paso pc archivos].
    rewrite Hm; reflexivity.
  - intros l s' Hl Ni H; cbn [ejecutar paso pc archivos] in H; rewrite Hg in H.
    destruct l as [|e1 [|e2 [|e3 l]]]; cbn [List.length] in Hl; try lia.
    + inversion H; subst; auto.
    + destruct e1; cbn [ejecutar paso pc archivos] in H; try discriminate;
        [|exfalso; apply Ni; left; reflexivity].
      rewrite Hm in H; inversion H; subst; auto.
    + destruct e1; cbn [ejecutar paso pc archivos] in H; try discriminate;
        [|exfalso; apply Ni; left; reflexivity].
      rewrite Hm in H; cbn [ejecutar] in H.
      destruct e2; cbn [ejecutar paso pc archivos] in H; try discriminate;
        [|exfalso; apply Ni; right; left; reflexivity].
      inversion H; subst; auto.
Qed.

(** C7, a defect of the code: a CTRL+C that arrives while
    [OpenRouterConversacion.generar_pregunta] reads the body of a response
    that is not [ok] is swallowed by the bare [except: pass] of lines
    102-103.  The same interrupt on an [ok] response reaches the
    [KeyboardInterrupt] handler; here the call returns the transport
    fallback, which the controller appends as a new interviewer turn
    before prompting again: the session neither saves nor ends. *)
Theorem interrupcion_ignorada (lg : EntrevistaLogger) (prompt_base : pystr) (k : pystr)
    (c : conversacion) (fs : almacen) :
  k <> [] ->
  paso lg prompt_base (Some k) (mk_estado (Generar c) fs)
    (EGenera (RespuestaHttp true CuerpoInterrumpido))
  = Some (mk_estado (Manejador c) fs)
  /\ paso lg prompt_base (Some k) (mk_estado (Generar c) fs)
       (EGenera (RespuestaHttp false CuerpoInterrumpido))
     = Some (mk_estado (RevisarCierre c pregunta_fallo_transporte) fs)
  /\ ejecutar lg prompt_base (Some k) (mk_estado (Generar c) fs)
       [EGenera (RespuestaHttp false CuerpoInterrumpido); ETau; ETau]
     = Some (mk_estado (EsperaEnter (c ++ [turno_entrevistador pregunta_fallo_transporte])) fs).
Proof.
  intros Hk; destruct k as [|z k]; [contradiction|].
  split; [reflexivity|]; split; [reflexivity|].
  cbn [ejecutar paso pc archivos generar_pregunta OpenRouterConversacion_generar_pregunta].
  destruct marcador_fallos as [M _]; rewrite M; reflexivity.
Qed.

(** ** [generar_resumen] *)

Lemma py_split_aux_espacio (a b w : pystr) :
  py_split_aux (a ++ 32 :: b) w = py_split_aux a w ++ py_split_aux b [].
Proof.
  revert w; induction a as [|c a IH]; intros w.
  - cbn [app py_split_aux]. replace (py_isspace 32) with true by reflexivity.
    destruct w; reflexivity.
  - cbn [app py_split_aux]. destruct (py_isspace c).
    + destruct w; [apply IH | cbn [app]; f_equal; apply IH].
    + apply IH.
Qed.

Lemma py_split_unir (x : pystr) (xs : list pystr) :
  py_split (unir [32] (x :: xs)) = py_split x ++ flat_map py_split xs.
Proof.
  revert x; induction xs as [|y ys IH]; intros x.
  - cbn [unir flat_map]; rewrite !app_nil_r; reflexivity.
  - cbn [unir flat_map]. unfold py_split at 1.
    change ([32] ++ y) with (32 :: y).
    replace (x ++ (32 :: y) ++ flat_map (fun y0 => [32] ++ y0) ys)
      with (x ++ 32 :: (y ++ flat_map (fun y0 => [32] ++ y0) ys))
      by (rewrite <- app_comm_cons; reflexivity).
    rewrite py_split_aux_espacio; fold (py_split x).
    change (py_split_aux (y ++ flat_map (fun y0 => [32] ++ y0) ys) [])
      with (py_split (unir [32] (y :: ys))).
    rewrite IH; reflexivity.
Qed.

Lemma longitud_flat_map_split (xs : list pystr) :
  List.length (flat_map py_split xs) = list_sum (map (fun s => List.length (py_split s)) xs).
Proof.
  induction xs as [|y ys IH]; [reflexivity|].
  cbn [flat_map map list_sum]; rewrite length_app, IH; reflexivity.
Qed.

Lemma palabras_unidas (l : list pystr) :
  List.length (py_split (unir [32] l)) = list_sum (map (fun s => List.length (py_split s)) l).
Proof.
  destruct l as [|x xs]; [reflexivity|].
  rewrite py_split_unir, length_app, longitud_flat_map_split; reflexivity.
Qed.

Lemma es_rol_turno (t : turno) (r : pystr) : es_rol (turno_json t) r = Some (str_eqb (rol t) r).
Proof. reflexivity. Qed.

Lemma texto_turno (t : turno) : py_getitem (turno_json t) clave_texto = Some (JStr (texto t)).
Proof. reflexivity. Qed.

Lemma contar_rol_turnos (c : conversacion) (r : pystr) :
  contar_rol (map turno_json c) r = Some (List.length (filter (fun x => str_eqb (rol x) r) c)).
Proof.
  induction c as [|t c IH]; [reflexivity|].
  cbn [map contar_rol filter]; rewrite es_rol_turno, IH.
  destruct (str_eqb (rol t) r); reflexivity.
Qed.

Lemma textos_rol_turnos (c : conversacion) (r : pystr) :
  textos_rol (map turno_json c) r = Some (map texto (filter (fun x => str_eqb (rol x) r) c)).
Proof.
  induction c as [|t c IH]; [reflexivity|].
  cbn [map textos_rol filter]; rewrite es_rol_turno.
  destruct (str_eqb (rol t) r); [rewrite texto_turno, IH; reflexivity | exact IH].
Qed.

Lemma last_map_turnos (c : conversacion) (t0 : turno) :
  last (map turno_json c) (turno_json t0) = turno_json (last c t0).
Proof.
  induction c as [|t c IH]; [reflexivity|].
  destruct c as [|t' c]; [reflexivity|].
  change (last (map turno_json (t :: t' :: c)) (turno_json t0))
    with (last (map turno_json (t' :: c)) (turno_json t0)).
  rewrite IH; reflexivity.
Qed.

(** X2: Once [guardar_conversacion] has written a conversation,
    [generar_resumen] on the output file counts its turns by role, counts
    the words of each role as the sum of the words of its turns, and
    reports the texts of its first and last turns; an empty conversation
    gives the error dictionary. *)
Theorem resumen_tras_guardar (lg : EntrevistaLogger) (fs fs' : almacen) (t : fecha)
    (c : conversacion) (p : pystr) :
  conversacion_valida c ->
  guardar_conversacion lg fs t c = Ok (fs', p) ->
  generar_resumen lg fs' None =
  match c with
  | [] => SinConversacion
  | t0 :: _ =>
      let de r := filter (fun x => str_eqb (rol x) r) c in
      let palabras r := list_sum (map (fun x => List.length (py_split (texto x))) (de r)) in
      Resumen (mk_resumen (List.length c)
                 (List.length (de rol_entrevistador)) (List.length (de rol_candidato))
                 (palabras rol_entrevistador) (palabras rol_candidato)
                 (Qmult (inject_Z (Z.of_nat (List.length c))) (Qmake 1 2))
                 (JStr (texto t0)) (JStr (texto (last c t0))))
  end.
Proof.
  intros Hc H; apply guardar_escribe in H as [b [Hb [-> ->]]].
  unfold generar_resumen.
  rewrite (cargar_contenido lg _ t c b Hc Hb (escribir_mismo fs _ b)).
  destruct c as [|t0 c']; [reflexivity|].
  unfold conversacion_json; cbn [py_truthy negb py_iter].
  rewrite !contar_rol_turnos, !textos_rol_turnos.
  change (map turno_json (t0 :: c')) with (turno_json t0 :: map turno_json c').
  cbv beta iota; rewrite texto_turno.
  change (turno_json t0 :: map turno_json c') with (map turno_json (t0 :: c')).
  rewrite last_map_turnos, texto_turno, length_map, !palabras_unidas, !map_map.
  reflexivity.
Qed.

(** ** [listar_entrevistas] and the output file names *)

Lemma str_menor_asim (a b : pystr) : str_menor a b = true -> str_menor b a = false.
Proof.
  revert b; induction a as [|x a IH]; intros b H; destruct b as [|y b]; cbn [str_menor] in *;
    try discriminate; [reflexivity|].
  destruct (x <? y) eqn:E1.
  - apply Z.ltb_lt in E1. destruct (Z.ltb_spec y x); [lia|].
    destruct (Z.ltb_spec x y); [reflexivity | lia].
  - destruct (y <? x) eqn:E2; [discriminate|].
    apply IH; exact H.
Qed.

Lemma insertar_perm (x : pystr) (l : list pystr) : Permutation (insertar x l) (x :: l).
Proof.
  induction l as [|y l IH]; cbn [insertar]; [reflexivity|].
  destruct (str_menor y x); [|reflexivity].
  rewrite IH; apply perm_swap.
Qed.

Lemma py_sorted_perm (l : list pystr) : Permutation (py_sorted l) l.
Proof.
  induction l as [|x l IH]; [reflexivity|].
  cbn [py_sorted fold_right]; fold (py_sorted l).
  rewrite insertar_perm, IH; reflexivity.
Qed.

Lemma insertar_hd (x y : pystr) (l : list pystr) :
  HdRel (fun a b => str_menor b a = false) y l -> str_menor x y = false ->
  HdRel (fun a b => str_menor b a = false) y (insertar x l).
Proof.
  intros H Hx; destruct l as [|z l]; cbn [insertar]; [constructor; exact Hx|].
  destruct (str_menor z x); [inversion H; subst; constructor; assumption | constructor; exact Hx].
Qed.

Lemma insertar_sorted (x : pystr) (l : list pystr) :
  Sorted (fun a b => str_menor b a = false) l ->
  Sorted (fun a b => str_menor b a = false) (insertar x l).
Proof.
  induction l as [|y l IH]; intros S; cbn [insertar]; [repeat constructor|].
  apply Sorted_inv in S as [S H].
  destruct (str_menor y x) eqn:E.
  - constructor; [apply IH, S|]. apply insertar_hd; [exact H|]. apply str_menor_asim; exact E.
  - constructor; [constructor; assumption | constructor; exact E].
Qed.

Lemma py_sorted_sorted (l : list pystr) : Sorted (fun a b => str_menor b a = false) (py_sorted l).
Proof.
  induction l as [|x l IH]; [constructor|].
  cbn [py_sorted fold_right]; fold (py_sorted l); apply insertar_sorted, IH.
Qed.

(** X4: The listed names are the names of the directory that start with
    [entrevista_] and end in [.json], each as often as [os.listdir] gives
    it, in ascending order. *)
Theorem listar_ordenada (lg : EntrevistaLogger) (listdir : pystr -> option (list pystr))
    (archivos : list pystr) :
  listdir (directorio lg) = Some archivos ->
  Sorted (fun a b => str_menor b a = false) (listar_entrevistas lg listdir)
  /\ Permutation (listar_entrevistas lg listdir)
       (filter (fun f => es_prefijo prefijo_entrevista f && py_endswith f sufijo_json) archivos).
Proof.
  intros H; unfold listar_entrevistas; rewrite H.
  split; [apply py_sorted_sorted | apply py_sorted_perm].
Qed.

Lemma str_menor_app_igual (p r r' : pystr) : str_menor (p ++ r) (p ++ r') = str_menor r r'.
Proof.
  induction p as [|x p IH]; [reflexivity|].
  cbn [app str_menor]; rewrite Z.ltb_irrefl; exact IH.
Qed.

Lemma str_menor_cifra (a b : Z) (r r' : pystr) :
  str_menor ((48 + a) :: r) ((48 + b) :: r')
  = if a <? b then true else if a =? b then str_menor r r' else false.
Proof.
  cbn [str_menor].
  destruct (Z.ltb_spec (48 + a) (48 + b)); destruct (Z.ltb_spec (48 + b) (48 + a));
    destruct (Z.ltb_spec a b); destruct (Z.eqb_spec a b); try lia; reflexivity.
Qed.

Lemma str_menor_fijos (w : nat) :
  forall a b r r', 0 <= a < 10 ^ Z.of_nat w -> 0 <= b < 10 ^ Z.of_nat w ->
  str_menor (digitos_fijos w a ++ r) (digitos_fijos w b ++ r')
  = if a <? b then true else if a =? b then str_menor r r' else false.
Proof.
  induction w as [|w IH]; intros a b r r' Ha Hb.
  - cbn in Ha, Hb; assert (a = 0) by lia; assert (b = 0) by lia; subst; reflexivity.
  - rewrite Nat2Z.inj_succ, Z.pow_succ_r in Ha, Hb by lia.
    cbn [digitos_fijos]; rewrite <- !app_assoc.
    assert (Qa : 0 <= a / 10 < 10 ^ Z.of_nat w)
      by (split; [apply Z.div_pos; lia | apply Z.div_lt_upper_bound; lia]).
    assert (Qb : 0 <= b / 10 < 10 ^ Z.of_nat w)
      by (split; [apply Z.div_pos; lia | apply Z.div_lt_upper_bound; lia]).
    rewrite (IH _ _ _ _ Qa Qb). cbn [app]; rewrite str_menor_cifra.
    pose proof (Z.div_mod a 10 ltac:(lia)); pose proof (Z.mod_pos_bound a 10 ltac:(lia)).
    pose proof (Z.div_mod b 10 ltac:(lia)); pose proof (Z.mod_pos_bound b 10 ltac:(lia)).
    destruct (Z.ltb_spec (a / 10) (b / 10)); destruct (Z.eqb_spec (a / 10) (b / 10));
      destruct (Z.ltb_spec (a mod 10) (b mod 10)); destruct (Z.eqb_spec (a mod 10) (b mod 10));
      destruct (Z.ltb_spec a b); destruct (Z.eqb_spec a b); try lia; reflexivity.
Qed.

Lemma rellenar_2 : forallb (fun n => if list_eq_dec Z.eq_dec (rellenar 2 n) (digitos_fijos 2 n)
                                     then true else false)
                           (map Z.of_nat (seq 0 100)) = true.
Proof. vm_compute; reflexivity. Qed.

Lemma rellenar_4 : forallb (fun n => if list_eq_dec Z.eq_dec (rellenar 4 n) (digitos_fijos 4 n)
                                     then true else false)
                           (map (fun k => 1000 + Z.of_nat k) (seq 0 (Z.to_nat 9000))) = true.
Proof. vm_compute; reflexivity. Qed.

Lemma rellenar_2_fijos (n : Z) : 0 <= n <= 99 -> rellenar 2 n = digitos_fijos 2 n.
Proof.
  intros Hn; pose proof rellenar_2 as H; rewrite forallb_forall in H.
  assert (Hin : In n (map Z.of_nat (seq 0 100))).
  { apply in_map_iff; exists (Z.to_nat n); split; [lia | apply in_seq; lia]. }
  specialize (H n Hin); destruct (list_eq_dec Z.eq_dec _ _); [assumption | discriminate].
Qed.

Lemma rellenar_4_fijos (n : Z) : 1000 <= n <= 9999 -> rellenar 4 n = digitos_fijos 4 n.
Proof.
  intros Hn; pose proof rellenar_4 as H; rewrite forallb_forall in H.
  assert (Hin : In n (map (fun k => 1000 + Z.of_nat k) (seq 0 (Z.to_nat 9000)))).
  { apply in_map_iff; exists (Z.to_nat (n - 1000)); split; [lia | apply in_seq; lia]. }
  specialize (H n Hin); destruct (list_eq_dec Z.eq_dec _ _); [assumption | discriminate].
Qed.

Lemma str_menor_irrefl (a : pystr) : str_menor a a = false.
Proof. induction a as [|x a IH]; [reflexivity|]. cbn [str_menor]; rewrite Z.ltb_irrefl; exact IH. Qed.

Lemma fecha_valida_rangos (t : fecha) :
  fecha_valida t = true ->
  1000 <= anio t <= 9999 /\ 0 <= mes t <= 99 /\ 0 <= dia t <= 99
  /\ 0 <= hora t <= 99 /\ 0 <= minuto t <= 99 /\ 0 <= segundo t <= 99.
Proof. unfold fecha_valida; intros H; repeat rewrite andb_true_iff in H; lia. Qed.

(** X5: For two clock readings that [datetime] allows, with four-digit years,
    the file name of the first logger sorts before the second's exactly
    when its reading is earlier to the second: the order in which
    [listar_entrevistas] lists them is the order of creation. *)
Theorem nombres_cronologicos (t1 t2 : fecha) :
  fecha_valida t1 = true -> fecha_valida t2 = true ->
  str_menor (nombre_archivo t1) (nombre_archivo t2)
  = lex_menor (campos_segundo t1) (campos_segundo t2).
Proof.
  intros V1 V2.
  destruct (fecha_valida_rangos t1 V1) as [A1 [M1 [D1 [H1 [N1 S1]]]]].
  destruct (fecha_valida_rangos t2 V2) as [A2 [M2 [D2 [H2 [N2 S2]]]]].
  unfold nombre_archivo, sello, campos_segundo.
  rewrite str_menor_app_igual.
  rewrite (rellenar_4_fijos (anio t1)), (rellenar_4_fijos (anio t2)),
    !(rellenar_2_fijos (mes t1)), !(rellenar_2_fijos (mes t2)),
    !(rellenar_2_fijos (dia t1)), !(rellenar_2_fijos (dia t2)),
    !(rellenar_2_fijos (hora t1)), !(rellenar_2_fijos (hora t2)),
    !(rellenar_2_fijos (minuto t1)), !(rellenar_2_fijos (minuto t2)),
    !(rellenar_2_fijos (segundo t1)), !(rellenar_2_fijos (segundo t2)) by lia.
  rewrite <- !app_assoc.
  cbn [lex_menor].
  rewrite str_menor_fijos by (cbn; lia); f_equal.
  rewrite str_menor_fijos by (cbn; lia); f_equal.
  rewrite str_menor_fijos by (cbn; lia); f_equal.
  rewrite (str_menor_app_igual [95]).
  rewrite str_menor_fijos by (cbn; lia); f_equal.
  rewrite str_menor_fijos by (cbn; lia); f_equal.
  rewrite str_menor_fijos by (cbn; lia); f_equal.
  destruct (segundo t1 =? segundo t2); [|reflexivity].
  rewrite str_menor_irrefl; reflexivity.
Qed.

Lemma lex_menor_total (a b : list Z) :
  List.length a = List.length b -> a <> b -> lex_menor a b = true \/ lex_menor b a = true.
Proof.
  revert b; induction a as [|x a IH]; intros b L N; destruct b as [|y b]; try discriminate;
    [congruence|].
  cbn [lex_menor]; cbn in L.
  destruct (Z.ltb_spec x y); [left; reflexivity|].
  destruct (Z.ltb_spec y x); [right; reflexivity|].
  assert (x = y) by lia; subst y; rewrite Z.eqb_refl.
  apply IH; [lia | congruence].
Qed.

(** X6: Two loggers whose clock readings fall in the same second get the
    same output file name, and readings in different seconds never do. *)
Theorem mismo_archivo_mismo_segundo (t1 t2 : fecha) :
  fecha_valida t1 = true -> fecha_valida t2 = true ->
  nombre_archivo t1 = nombre_archivo t2 <-> campos_segundo t1 = campos_segundo t2.
Proof.
  intros V1 V2; split.
  - intros E; destruct (list_eq_dec Z.eq_dec (campos_segundo t1) (campos_segundo t2)) as [|N];
      [assumption|].
    exfalso; destruct (lex_menor_total (campos_segundo t1) (campos_segundo t2) eq_refl N) as [L|L].
    + rewrite <- (nombres_cronologicos t1 t2 V1 V2), E, str_menor_irrefl in L; discriminate.
    + rewrite <- (nombres_cronologicos t2 t1 V2 V1), E, str_menor_irrefl in L; discriminate.
  - unfold campos_segundo, nombre_archivo, sello; intros E; inversion E as [[Ea Em Ed Eh En Es]].
    rewrite Ea, Em, Ed, Eh, En, Es; reflexivity.
Qed.

(** ** [str.strip] and the cleaning of the generated question *)

Lemma quitar_inicio_sufijo (s : pystr) : exists p, s = p ++ quitar_inicio s.
Proof.
  induction s as [|c r IH]; [exists []; reflexivity|].
  cbn [quitar_inicio]; destruct (py_isspace c).
  - destruct IH as [p Hp]; exists (c :: p); simpl; congruence.
  - exists []; reflexivity.
Qed.

Lemma quitar_inicio_cabeza (s : pystr) (c : Z) (r : pystr) :
  quitar_inicio s = c :: r -> py_isspace c = false.
Proof.
  induction s as [|x s IH]; cbn [quitar_inicio]; [discriminate|].
  destruct (py_isspace x) eqn:E; [exact IH|]. intros H; inversion H; subst; exact E.
Qed.

Lemma quitar_inicio_fijo (s : pystr) :
  match s with [] => True | c :: _ => py_isspace c = false end ->
  quitar_inicio s = s.
Proof. destruct s as [|c r]; [reflexivity|]. cbn [quitar_inicio]; intros ->; reflexivity. Qed.

Lemma quitar_inicio_idem (s : pystr) : quitar_inicio (quitar_inicio s) = quitar_inicio s.
Proof.
  apply quitar_inicio_fijo; destruct (quitar_inicio s) as [|c r] eqn:E; [exact I|].
  exact (quitar_inicio_cabeza s c r E).
Qed.

Lemma py_strip_idem (s : pystr) : py_strip (py_strip s) = py_strip s.
Proof.
  unfold py_strip; set (q := quitar_inicio s); set (r := quitar_inicio (rev q)).
  assert (Hr : quitar_inicio r = r) by apply quitar_inicio_idem.
  assert (Hq : quitar_inicio (rev r) = rev r).
  { apply quitar_inicio_fijo.
    destruct (quitar_inicio_sufijo (rev q)) as [p Hp]; fold r in Hp.
    assert (E : q = rev r ++ rev p)
      by (rewrite <- rev_app_distr, <- Hp, rev_involutive; reflexivity).
    destruct (rev r) as [|c x]; [exact I|].
    destruct q as [|y q'] eqn:Eq; [discriminate|].
    inversion E; subst y.
    exact (quitar_inicio_cabeza s c q' Eq). }
  rewrite Hq, rev_involutive, Hr; reflexivity.
Qed.

Lemma reemplazar_sin_aparicion (f : nat) (viejo nuevo s : pystr) :
  contiene s viejo = false -> reemplazar_aux f viejo nuevo s = s.
Proof.
  revert s; induction f as [|f IH]; intros s H; [reflexivity|].
  destruct s as [|c r]; [reflexivity|].
  cbn [contiene] in H; apply orb_false_iff in H as [H1 H2].
  cbn [reemplazar_aux]; rewrite H1, IH by exact H2; reflexivity.
Qed.

Lemma fallos_sin_bordes :
  py_strip pregunta_fallo_transporte = pregunta_fallo_transporte
  /\ py_strip pregunta_fallo_forma = pregunta_fallo_forma
  /\ py_strip pregunta_fallo_cliente = pregunta_fallo_cliente.
Proof. vm_compute; auto. Qed.

(** X7: Every question [generar_pregunta] returns is its own [strip()]. *)
Theorem pregunta_sin_espacios_bordes (api_key : option pystr) (c : conversacion)
    (prompt_base : pystr) (enviar : list mensaje -> respuesta_http) (g : pystr) :
  generar_pregunta api_key c prompt_base enviar = Devuelve g -> py_strip g = g.
Proof.
  destruct fallos_sin_bordes as [F1 [F2 F3]].
  unfold generar_pregunta, OpenRouterConversacion_generar_pregunta.
  destruct api_key as [[|z k]|];
    [intros H; inversion H; subst; exact F3| |intros H; inversion H; subst; exact F3].
  destruct (enviar _) as [| |[|] [j| |]]; try (destruct (extraer j));
    intros H; inversion H; subst; try assumption.
  unfold limpiar; apply py_strip_idem.
Qed.

(** X8: A content that needs no cleaning is returned as it is. *)
Theorem contenido_limpio_intacto (prompt_base : pystr) (c : conversacion)
    (enviar : list mensaje -> respuesta_http) (j : json) (s : pystr) :
  enviar (mensajes prompt_base c) = RespuestaHttp true (CuerpoJson j) ->
  extraer j = Contenido s ->
  py_strip s = s ->
  contiene s prefijo_entrevistador = false ->
  OpenRouterConversacion_generar_pregunta prompt_base c enviar = Devuelve s.
Proof.
  intros He Hx Hs Hc; unfold OpenRouterConversacion_generar_pregunta.
  rewrite He, Hx; unfold limpiar, py_replace; rewrite Hs.
  rewrite reemplazar_sin_aparicion by exact Hc; rewrite Hs; reflexivity.
Qed.

(** ** The model sent to OpenRouter *)

Lemma aplicar_mapping_idem (m : pystr) : aplicar_mapping (aplicar_mapping m) = aplicar_mapping m.
Proof.
  unfold aplicar_mapping; destruct (str_eqb m nombre_corto) eqn:E; [reflexivity|].
  rewrite E; reflexivity.
Qed.

(** X9: The model posted to OpenRouter is the given name, or the default
    model when the name is missing, empty or ['meta-llama']; from the
    command line it is the default model or one of the bare names
    ['claude'] and ['gpt']. *)
Theorem modelo_del_payload (nombre_modelo : option pystr) (prompt_base : pystr) (c : conversacion) :
  model (payload_enviado nombre_modelo prompt_base c)
  = match nombre_modelo with
    | None | Some [] => modelo_por_defecto
    | Some s => if str_eqb s nombre_corto then modelo_por_defecto else s
    end
  /\ (forall valor m, args_modelo valor = Some m ->
        model (payload_enviado (Some m) prompt_base c)
        = match valor with None => modelo_por_defecto | Some v => v end
        /\ (valor = None \/ m = u "claude" \/ m = u "gpt")).
Proof.
  split.
  - cbn [payload_enviado construir_payload model OpenRouterConversacion_modelo].
    unfold modelo_especifico; rewrite aplicar_mapping_idem.
    destruct nombre_modelo as [[|z s]|]; reflexivity.
  - intros valor m H; cbn [payload_enviado construir_payload model OpenRouterConversacion_modelo].
    unfold modelo_especifico; rewrite aplicar_mapping_idem.
    destruct valor as [v|]; cbn [args_modelo] in H.
    + destruct (existsb (str_eqb v) [u "claude"; u "gpt"]) eqn:E; [|discriminate].
      inversion H; subst m.
      cbn [existsb] in E; unfold str_eqb in E.
      destruct (list_eq_dec Z.eq_dec v (u "claude")) as [->|N1];
        [split; [reflexivity | right; left; reflexivity]|].
      destruct (list_eq_dec Z.eq_dec v (u "gpt")) as [->|N2];
        [split; [reflexivity | right; right; reflexivity]|discriminate].
    + inversion H; subst m; split; [reflexivity | left; reflexivity].
Qed.

(** ** The output file while the session waits *)

Lemma guardado_persistir lg (c : conversacion) (t : fecha) (fs : almacen) (p : punto) :
  persistir lg c t fs p = mk_estado (Abortado c) fs
  \/ (persistir lg c t fs p = mk_estado p (archivos (persistir lg c t fs p))
      /\ guardado_en lg c (archivos (persistir lg c t fs p))).
Proof.
  destruct (persistir_casos lg c t fs p) as [[b [Hb ->]]|[_ ->]]; [right|left; reflexivity].
  split; [reflexivity|]. exists t, b; split; [exact Hb | apply escribir_mismo].
Qed.

Lemma paso_inv_archivo lg pb ak fs0 (s s1 : estado) (e : evento) :
  inv_archivo lg fs0 s -> paso lg pb ak s e = Some s1 -> inv_archivo lg fs0 s1.
Proof.
  destruct s as [p fs]; unfold inv_archivo; cbn [pc archivos].
  destruct p; destruct e; cbn [paso pc archivos interrumpir]; intros I H; try discriminate;
    try (inversion H; subst; exact I); try (inversion H; subst; exact Logic.I).
  - (* Revisar, ETau *)
    destruct (vacia r); inversion H; subst; [exact I|]. exists c, r; split; [reflexivity | exact I].
  - (* GuardarParcial, EGuarda *)
    inversion H; subst.
    destruct (guardado_persistir lg c t fs (Generar c)) as [-> | [-> G]]; [exact Logic.I | exact G].
  - (* Generar, EGenera *)
    destruct (generar_pregunta _ _ _ _); inversion H; subst; [exact I | exact Logic.I].
  - (* RevisarCierre, ETau *)
    destruct (marcador g); inversion H; subst; exact I.
  - (* CierreAnadir, ETau *)
    inversion H; subst; cbn [pc archivos]. exists c, g; split; [reflexivity | exact I].
  - (* CierreGuardar, EGuarda *)
    inversion H; subst.
    destruct (guardado_persistir lg c t fs (Despedida c)) as [-> | [-> _]]; exact Logic.I.
  - (* Presentar, ETau *)
    inversion H; subst; cbn [pc archivos]. right; exists c, g; split; [reflexivity | exact I].
  - (* Manejador, EGuarda *)
    inversion H; subst.
    destruct (guardado_persistir lg c t fs (Terminado c)) as [-> | [-> _]]; exact Logic.I.
Qed.

Lemma ejecutar_inv_archivo lg pb ak fs0 (l : list evento) :
  forall s s', inv_archivo lg fs0 s -> ejecutar lg pb ak s l = Some s' -> inv_archivo lg fs0 s'.
Proof.
  induction l as [|e l IH]; intros s s' I H; simpl in H; [congruence|].
  destruct (paso lg pb ak s e) as [s1|] eqn:P; [|discriminate].
  exact (IH s1 s' (paso_inv_archivo lg pb ak fs0 s s1 e I P) H).
Qed.

(** X11: Whenever the session waits for ENTER, the output file holds the
    conversation without its last turn, an interviewer question, or
    nothing has been written yet and the conversation is the opening
    question. *)
Theorem archivo_en_espera (lg : EntrevistaLogger) (prompt_base : pystr)
    (api_key : option pystr) (fs0 : almacen) (l : list evento) (s : estado) (c : conversacion) :
  ejecutar lg prompt_base api_key (inicio fs0) l = Some s ->
  pc s = EsperaEnter c ->
  (c = [turno_entrevistador pregunta_inicial]
   /\ archivos s (archivo_salida lg) = fs0 (archivo_salida lg))
  \/ (exists c' g t b, c = c' ++ [turno_entrevistador g]
        /\ contenido_guardado t c' = Some b /\ archivos s (archivo_salida lg) = Some b).
Proof.
  intros H E.
  assert (I0 : inv_archivo lg fs0 (inicio fs0))
    by (unfold inv_archivo; cbn [inicio pc archivos]; left; split; reflexivity).
  pose proof (ejecutar_inv_archivo lg prompt_base api_key fs0 l _ s I0 H) as I.
  unfold inv_archivo in I; rewrite E in I.
  destruct I as [I | [c' [g [-> [t [b [Hb Hf]]]]]]]; [left; exact I|].
  right; exists c', g, t, b; auto.
Qed.

(** ** The silence detection of [grabar_audio] *)

Lemma ventana_S (g : list Q) (k j : nat) :
  ventana_silencio g (S k) j
  = ventana_silencio g k j && (Nat.ltb (j + k) (List.length g) && es_silencio (nth (j + k) g 0%Q)).
Proof.
  unfold ventana_silencio; rewrite seq_S, forallb_app; cbn [forallb]; rewrite andb_true_r; reflexivity.
Qed.

Lemma ventana_spec (g : list Q) (k j : nat) :
  ventana_silencio g k j = true <->
  (forall d, (d < k)%nat -> (j + d < List.length g)%nat /\ es_silencio (nth (j + d) g 0%Q) = true).
Proof.
  unfold ventana_silencio; rewrite forallb_forall; split.
  - intros H d Hd; specialize (H d (proj2 (in_seq k 0 d) (conj (Nat.le_0_l d) Hd))).
    apply andb_true_iff in H as [H1 H2]; apply Nat.ltb_lt in H1; auto.
  - intros H d Hd; apply in_seq in Hd; destruct (H d (proj2 Hd)) as [H1 H2].
    apply andb_true_iff; split; [apply Nat.ltb_lt; exact H1 | exact H2].
Qed.

Lemma racha_ge (g : list Q) (n : nat) :
  forall k, (k <= racha g n)%nat <-> (k <= n)%nat /\ ventana_silencio g k (n - k) = true.
Proof.
  induction n as [|n IH]; intros k.
  - cbn [racha]; split.
    + intros Hk; assert (k = O) by lia; subst; split; [lia | reflexivity].
    + intros [Hk _]; lia.
  - cbn [racha].
    destruct (Nat.ltb n (List.length g) && es_silencio (nth n g 0%Q)) eqn:C.
    + destruct k as [|k]; [split; [intros; split; [lia | reflexivity] | lia]|].
      rewrite <- Nat.succ_le_mono, IH.
      replace (S n - S k)%nat with (n - k)%nat by lia.
      split.
      * intros [Hk W]; split; [lia|]. rewrite ventana_S, W.
        replace (n - k + k)%nat with n by lia. rewrite C; reflexivity.
      * intros [Hk W]; split; [lia|]. rewrite ventana_S in W.
        apply andb_true_iff in W as [W _]; exact W.
    + destruct k as [|k]; [split; [intros; split; [lia | reflexivity] | lia]|].
      split; [lia|]. intros [Hk W]. rewrite ventana_S in W.
      replace (S n - S k + k)%nat with n in W by lia.
      rewrite C, andb_false_r in W; discriminate.
Qed.

Lemma racha_le (g : list Q) (n : nat) : (racha g n <= n)%nat.
Proof.
  induction n as [|n IH]; cbn [racha]; [lia|].
  destruct (_ && _); lia.
Qed.

Lemma vigilar_paso (g : list Q) (m i k : nat) :
  vigilar g m i (S k) (racha g i)
  = if Nat.leb m (racha g (S i)) then py_slice_hasta g (Z.of_nat i - Z.of_nat m)
    else vigilar g m (S i) k (racha g (S i)).
Proof. reflexivity. Qed.

Lemma vigilar_sin_deteccion (g : list Q) (m : nat) :
  forall k i, (forall i', (i <= i' < i + k)%nat -> (racha g (S i') < m)%nat) ->
  vigilar g m i k (racha g i) = g.
Proof.
  induction k as [|k IH]; intros i H; [reflexivity|].
  rewrite vigilar_paso.
  assert (L : Nat.leb m (racha g (S i)) = false)
    by (apply Nat.leb_gt, H; lia).
  rewrite L; apply IH; intros i' Hi'; apply H; lia.
Qed.

Lemma vigilar_deteccion (g : list Q) (m : nat) :
  forall k i e, (i <= e < i + k)%nat -> (m <= racha g (S e))%nat ->
  (forall i', (i <= i' < e)%nat -> (racha g (S i') < m)%nat) ->
  vigilar g m i k (racha g i) = py_slice_hasta g (Z.of_nat e - Z.of_nat m).
Proof.
  induction k as [|k IH]; intros i e He Hm H; [lia|].
  rewrite vigilar_paso.
  destruct (Nat.eq_dec i e) as [->|N].
  - apply Nat.leb_le in Hm; rewrite Hm; reflexivity.
  - assert (L : Nat.leb m (racha g (S i)) = false) by (apply Nat.leb_gt, H; lia).
    rewrite L; apply IH; [lia | exact Hm |]. intros i' Hi'; apply H; lia.
Qed.

Lemma sin_ventana_antes (g : list Q) (m j i' : nat) :
  forallb (fun j' => negb (ventana_silencio g m j')) (seq 0 j) = true ->
  (S i' - m < j)%nat -> (racha g (S i') < m)%nat.
Proof.
  intros H Hi; destruct (Nat.lt_ge_cases (racha g (S i')) m) as [L|L]; [exact L|].
  apply racha_ge in L as [Lm W].
  rewrite forallb_forall in H.
  specialize (H (S i' - m)%nat (proj2 (in_seq j 0 _) (conj (Nat.le_0_l _) Hi))).
  rewrite W in H; discriminate.
Qed.

(** X12: Without [m] consecutive silent samples the recording is returned
    whole. *)
Theorem grabacion_sin_silencio (duracion_max fs : nat) (grabacion : list Q) :
  List.length grabacion = (duracion_max * fs)%nat ->
  forallb (fun j => negb (ventana_silencio grabacion (2 * fs) j))
          (seq 0 (List.length grabacion)) = true ->
  grabar_audio duracion_max fs grabacion = grabacion.
Proof.
  intros Hl H; unfold grabar_audio.
  change (vigilar ?g ?m 0 ?k 0) with (vigilar g m 0 k (racha g 0)).
  apply vigilar_sin_deteccion; intros i' Hi'.
  apply (sin_ventana_antes grabacion (2 * fs) (List.length grabacion)); [exact H|].
  destruct fs as [|fs']; [rewrite Nat.mul_0_r in Hi'; lia | lia].
Qed.

(** X13: When the first silent window starts at [j >= 1], the recording is cut
    to its first [j - 1] samples: sample [j - 1], the last one not below
    the threshold before the silence, is cut off with it. *)
Theorem grabacion_recortada (duracion_max fs : nat) (grabacion : list Q) (j : nat) :
  List.length grabacion = (duracion_max * fs)%nat ->
  (1 <= j)%nat ->
  ventana_silencio grabacion (2 * fs) j = true ->
  forallb (fun j' => negb (ventana_silencio grabacion (2 * fs) j')) (seq 0 j) = true ->
  grabar_audio duracion_max fs grabacion = firstn (j - 1) grabacion
  /\ es_silencio (nth (j - 1) grabacion 0%Q) = false.
Proof.
  intros Hl Hj W H; set (m := (2 * fs)%nat) in *.
  assert (Hm : (1 <= m)%nat).
  { destruct m as [|m']; [|lia].
    rewrite forallb_forall in H.
    specialize (H O (proj2 (in_seq j 0 0) (conj (le_n 0) Hj))).
    unfold ventana_silencio in H; discriminate. }
  pose proof (proj1 (ventana_spec grabacion m j) W) as Ws.
  destruct (Ws (m - 1)%nat ltac:(lia)) as [Hlen _].
  split.
  - unfold grabar_audio; fold m.
    change (vigilar ?g ?m 0 ?k 0) with (vigilar g m 0 k (racha g 0)).
    rewrite (vigilar_deteccion grabacion m (duracion_max * fs) 0 (j + m - 1)).
    + unfold py_slice_hasta.
      replace (Z.of_nat (j + m - 1) - Z.of_nat m) with (Z.of_nat (j - 1)) by lia.
      rewrite Nat2Z.id; destruct (Z.ltb_spec (Z.of_nat (j - 1)) 0); [lia | reflexivity].
    + lia.
    + apply racha_ge; split; [lia|]. replace (S (j + m - 1) - m)%nat with j by lia; exact W.
    + intros i' Hi'; apply (sin_ventana_antes grabacion m j); [exact H | lia].
  - destruct (es_silencio (nth (j - 1) grabacion 0%Q)) eqn:E; [|reflexivity].
    assert (W' : ventana_silencio grabacion m (j - 1) = true).
    { apply ventana_spec; intros d Hd.
      destruct d as [|d]; [rewrite Nat.add_0_r; split; [lia | exact E]|].
      replace (j - 1 + S d)%nat with (j + d)%nat by lia; apply Ws; lia. }
    rewrite forallb_forall in H.
    assert (Hin : In (j - 1)%nat (seq 0 j)) by (apply in_seq; lia).
    specialize (H (j - 1)%nat Hin).
    rewrite W' in H; discriminate.
Qed.

(** X14: When the recording starts with [m] silent samples, nothing is trimmed
    but its last sample: the slice [grabacion[:-1]]. *)
Theorem grabacion_silencio_inicial (duracion_max fs : nat) (grabacion : list Q) :
  List.length grabacion = (duracion_max * fs)%nat ->
  ventana_silencio grabacion (2 * fs) 0 = true ->
  grabar_audio duracion_max fs grabacion = firstn (List.length grabacion - 1) grabacion.
Proof.
  intros Hl W; set (m := (2 * fs)%nat) in *.
  destruct (Nat.eq_dec m 0) as [E|Hm].
  - assert (fs = O) by lia; subst fs.
    unfold grabar_audio; rewrite !Nat.mul_0_r; rewrite Nat.mul_0_r in Hl.
    destruct grabacion; [reflexivity | discriminate].
  - pose proof (proj1 (ventana_spec grabacion m 0) W) as Ws.
    destruct (Ws (m - 1)%nat ltac:(lia)) as [Hlen _].
    unfold grabar_audio; fold m.
    change (vigilar ?g ?m 0 ?k 0) with (vigilar g m 0 k (racha g 0)).
    rewrite (vigilar_deteccion grabacion m (duracion_max * fs) 0 (m - 1)).
    + unfold py_slice_hasta.
      replace (Z.of_nat (m - 1) - Z.of_nat m) with (-1) by lia; reflexivity.
    + lia.
    + apply racha_ge; split; [lia|]. replace (S (m - 1) - m)%nat with O by lia; exact W.
    + intros i' Hi'; pose proof (racha_le grabacion (S i')); lia.
Qed.

(** ** Witnesses: the theorems at concrete inputs *)

Lemma guardar_dos_veces_testigo :
  let fs1 := archivos_tras logger_ejemplo almacen_vacio fecha_1 conversacion_ejemplo in
  let fs2 := archivos_tras logger_ejemplo fs1 fecha_2 conversacion_ejemplo in
  (fs1 (archivo_salida logger_ejemplo) = contenido_guardado fecha_1 conversacion_ejemplo
   /\ fs2 (archivo_salida logger_ejemplo) = contenido_guardado fecha_2 conversacion_ejemplo
   /\ (forall q, q <> archivo_salida logger_ejemplo -> fs2 q = almacen_vacio q)
   /\ (fs2 (archivo_salida logger_ejemplo) = fs1 (archivo_salida logger_ejemplo)
       <-> isoformat fecha_1 = isoformat fecha_2)
   /\ (fecha_valida fecha_1 = true -> fecha_valida fecha_2 = true ->
       fs2 (archivo_salida logger_ejemplo) = fs1 (archivo_salida logger_ejemplo)
       <-> fecha_1 = fecha_2))
  /\ fs2 (archivo_salida logger_ejemplo) <> fs1 (archivo_salida logger_ejemplo).
Proof.
  intros fs1 fs2.
  pose proof (guardar_dos_veces logger_ejemplo almacen_vacio fs1 fs2 fecha_1 fecha_2
                conversacion_ejemplo (archivo_salida logger_ejemplo) (archivo_salida logger_ejemplo)
                (ltac:(unfold conversacion_valida, str_valido; repeat constructor; lia))
                eq_refl eq_refl) as H.
  split; [exact H|].
  destruct H as [_ [_ [_ [_ H5]]]].
  intros E; apply (H5 eq_refl eq_refl) in E; discriminate.
Defined.

Lemma guardar_luego_cargar_testigo :
  let fs1 := archivos_tras logger_ejemplo almacen_vacio fecha_1 conversacion_ejemplo in
  cargar_conversacion logger_ejemplo fs1 None = Ok (conversacion_json conversacion_ejemplo)
  /\ cargar_conversacion logger_ejemplo fs1 (Some (archivo_salida logger_ejemplo))
     = Ok (conversacion_json conversacion_ejemplo).
Proof.
  intros fs1.
  exact (guardar_luego_cargar logger_ejemplo almacen_vacio fs1 fecha_1 conversacion_ejemplo
           (archivo_salida logger_ejemplo)
           (ltac:(unfold conversacion_valida, str_valido; repeat constructor; lia)) eq_refl).
Defined.

Lemma respuesta_guardada_testigo :
  vacia respuesta_ejemplo = false
  /\ (forall t b, contenido_guardado t ([turno_entrevistador pregunta_inicial] ++ [turno_candidato respuesta_ejemplo]) = Some b ->
        ejecutar logger_ejemplo prompt_ejemplo clave_ejemplo
          (mk_estado (Revisar [turno_entrevistador pregunta_inicial] respuesta_ejemplo) almacen_vacio)
          [ETau; EGuarda t]
        = Some (mk_estado (Generar ([turno_entrevistador pregunta_inicial] ++ [turno_candidato respuesta_ejemplo]))
                  (escribir almacen_vacio (archivo_salida logger_ejemplo) b))).
Proof.
  assert (H : vacia respuesta_ejemplo = false) by (vm_compute; reflexivity).
  split; [exact H|].
  exact (proj1 (respuesta_guardada_antes_de_generar logger_ejemplo prompt_ejemplo clave_ejemplo
                  [turno_entrevistador pregunta_inicial] respuesta_ejemplo almacen_vacio H)).
Defined.


Lemma conversacion_alterna_testigo :
  ejecutar logger_ejemplo prompt_ejemplo clave_ejemplo (inicio almacen_vacio) eventos_ejemplo
    = Some estado_ejemplo
  /\ conversacion_de (pc estado_ejemplo)
     = conversacion_ejemplo ++ [turno_entrevistador despedida_ejemplo]
  /\ patron_sesion (conversacion_de (pc estado_ejemplo)) = true.
Proof.
  assert (H : ejecutar logger_ejemplo prompt_ejemplo clave_ejemplo (inicio almacen_vacio)
                eventos_ejemplo = Some estado_ejemplo) by (vm_compute; reflexivity).
  split; [exact H|]; split; [vm_compute; reflexivity|].
  exact (proj1 (conversacion_alterna logger_ejemplo prompt_ejemplo clave_ejemplo
                  almacen_vacio eventos_ejemplo estado_ejemplo H)).
Defined.

Lemma fallo_de_generacion_testigo :
  generacion_fallida clave_ejemplo conversacion_ejemplo prompt_ejemplo (fun _ => FalloTransporte) = true
  /\ ejecutar logger_ejemplo prompt_ejemplo clave_ejemplo (mk_estado (Generar conversacion_ejemplo) almacen_vacio)
       [EGenera FalloTransporte; ETau; ETau]
     = Some (mk_estado (EsperaEnter (conversacion_ejemplo ++ [turno_entrevistador pregunta_fallo_transporte]))
               almacen_vacio).
Proof.
  assert (H : generacion_fallida clave_ejemplo conversacion_ejemplo prompt_ejemplo
                (fun _ => FalloTransporte) = true) by reflexivity.
  split; [exact H|].
  destruct (fallo_de_generacion_no_termina logger_ejemplo prompt_ejemplo clave_ejemplo
              conversacion_ejemplo almacen_vacio FalloTransporte H)
    as [g [Hg [_ [_ [_ [R _]]]]]].
  assert (E : g = pregunta_fallo_transporte).
  { assert (D : Devuelve g = Devuelve pregunta_fallo_transporte) by (rewrite <- Hg; reflexivity).
    injection D as D; exact D. }
  rewrite <- E; exact R.
Defined.

Lemma interrupcion_ignorada_testigo :
  u "sk-or-clave" <> []
  /\ ejecutar logger_ejemplo prompt_ejemplo (Some (u "sk-or-clave"))
       (mk_estado (Generar conversacion_ejemplo) almacen_vacio)
       [EGenera (RespuestaHttp false CuerpoInterrumpido); ETau; ETau]
     = Some (mk_estado (EsperaEnter (conversacion_ejemplo ++ [turno_entrevistador pregunta_fallo_transporte]))
               almacen_vacio).
Proof.
  assert (H : u "sk-or-clave" <> []) by (vm_compute; discriminate).
  split; [exact H|].
  exact (proj2 (proj2 (interrupcion_ignorada logger_ejemplo prompt_ejemplo (u "sk-or-clave")
                         conversacion_ejemplo almacen_vacio H))).
Defined.

Lemma resumen_tras_guardar_testigo :
  generar_resumen logger_ejemplo
    (archivos_tras logger_ejemplo almacen_vacio fecha_1 conversacion_ejemplo) None
  = Resumen (mk_resumen 2 1 1 14 5 (Qmult (inject_Z 2) (Qmake 1 2))
               (JStr pregunta_inicial) (JStr respuesta_ejemplo)).
Proof.
  exact (resumen_tras_guardar logger_ejemplo almacen_vacio
           (archivos_tras logger_ejemplo almacen_vacio fecha_1 conversacion_ejemplo)
           fecha_1 conversacion_ejemplo (archivo_salida logger_ejemplo)
           (ltac:(unfold conversacion_valida, str_valido; repeat constructor; lia)) eq_refl).
Defined.

Lemma listar_ordenada_testigo :
  Sorted (fun a b => str_menor b a = false) (listar_entrevistas logger_ejemplo listdir_ejemplo)
  /\ Permutation (listar_entrevistas logger_ejemplo listdir_ejemplo)
       (filter (fun f => es_prefijo prefijo_entrevista f && py_endswith f sufijo_json)
               archivos_ejemplo).
Proof.
  exact (listar_ordenada logger_ejemplo listdir_ejemplo archivos_ejemplo
           (ltac:(vm_compute; reflexivity))).
Defined.

Lemma nombres_cronologicos_testigo :
  str_menor (nombre_archivo fecha_0) (nombre_archivo fecha_1) = true.
Proof.
  rewrite (nombres_cronologicos fecha_0 fecha_1 (ltac:(vm_compute; reflexivity))
             (ltac:(vm_compute; reflexivity))).
  vm_compute; reflexivity.
Defined.

Lemma mismo_archivo_mismo_segundo_testigo :
  nombre_archivo fecha_1 = nombre_archivo fecha_2.
Proof.
  apply (proj2 (mismo_archivo_mismo_segundo fecha_1 fecha_2 (ltac:(vm_compute; reflexivity))
                  (ltac:(vm_compute; reflexivity)))).
  reflexivity.
Defined.

Lemma pregunta_sin_espacios_bordes_testigo :
  generar_pregunta clave_ejemplo conversacion_ejemplo prompt_ejemplo
    (fun _ => RespuestaHttp true (CuerpoJson (respuesta_con respuesta_sucia)))
  = Devuelve pregunta_ejemplo
  /\ py_strip pregunta_ejemplo = pregunta_ejemplo.
Proof.
  assert (H : generar_pregunta clave_ejemplo conversacion_ejemplo prompt_ejemplo
                (fun _ => RespuestaHttp true (CuerpoJson (respuesta_con respuesta_sucia)))
              = Devuelve pregunta_ejemplo) by (vm_compute; reflexivity).
  split; [exact H|].
  exact (pregunta_sin_espacios_bordes clave_ejemplo conversacion_ejemplo prompt_ejemplo _
           pregunta_ejemplo H).
Defined.

Lemma contenido_limpio_intacto_testigo :
  OpenRouterConversacion_generar_pregunta prompt_ejemplo conversacion_ejemplo
    (fun _ => RespuestaHttp true (CuerpoJson (respuesta_con pregunta_ejemplo)))
  = Devuelve pregunta_ejemplo.
Proof.
  apply (contenido_limpio_intacto prompt_ejemplo conversacion_ejemplo _
           (respuesta_con pregunta_ejemplo) pregunta_ejemplo);
    vm_compute; reflexivity.
Defined.

Lemma modelo_del_payload_testigo :
  model (payload_enviado (Some nombre_corto) prompt_ejemplo conversacion_ejemplo)
  = modelo_por_defecto.
Proof. exact (proj1 (modelo_del_payload (Some nombre_corto) prompt_ejemplo conversacion_ejemplo)). Defined.

Lemma archivo_en_espera_testigo :
  pc estado_continua = EsperaEnter (conversacion_ejemplo ++ [turno_entrevistador pregunta_ejemplo])
  /\ ((conversacion_ejemplo ++ [turno_entrevistador pregunta_ejemplo]
       = [turno_entrevistador pregunta_inicial]
       /\ archivos estado_continua (archivo_salida logger_ejemplo)
          = almacen_vacio (archivo_salida logger_ejemplo))
      \/ (exists c' g t b,
            conversacion_ejemplo ++ [turno_entrevistador pregunta_ejemplo]
            = c' ++ [turno_entrevistador g]
            /\ contenido_guardado t c' = Some b
            /\ archivos estado_continua (archivo_salida logger_ejemplo) = Some b)).
Proof.
  assert (E : pc estado_continua
              = EsperaEnter (conversacion_ejemplo ++ [turno_entrevistador pregunta_ejemplo]))
    by (vm_compute; reflexivity).
  split; [exact E|].
  exact (archivo_en_espera logger_ejemplo prompt_ejemplo clave_ejemplo almacen_vacio
           eventos_continua estado_continua _ (ltac:(vm_compute; reflexivity)) E).
Defined.

Lemma grabacion_sin_silencio_testigo :
  grabar_audio 3 2 grabacion_con_voz = grabacion_con_voz.
Proof.
  apply (grabacion_sin_silencio 3 2 grabacion_con_voz); vm_compute; reflexivity.
Defined.

Lemma grabacion_recortada_testigo :
  grabar_audio 3 2 grabacion_con_pausa = [Qmake 1 2]
  /\ es_silencio (Qmake 1 5) = false.
Proof.
  exact (grabacion_recortada 3 2 grabacion_con_pausa 2 eq_refl (ltac:(lia))
           (ltac:(vm_compute; reflexivity)) (ltac:(vm_compute; reflexivity))).
Defined.

Lemma grabacion_silencio_inicial_testigo :
  grabar_audio 3 2 grabacion_callada = [0; 0; 0; 0; Qmake 1 2]%Q.
Proof.
  exact (grabacion_silencio_inicial 3 2 grabacion_callada eq_refl (ltac:(vm_compute; reflexivity))).
Defined.
